(** * Virtual-size estimation for Bitcoin-like transactions

    A shallow embedding of [src/provider/chains/btc/sdk/vsize.ts] and the
    properties of [estimateVsize] stated by the specification, followed by
    the methods of the Solana client class that turn the answers of the RPC
    node into results.

    The embedding follows the JavaScript the file compiles to:
    - a [number] is NaN, an infinity, or a finite value held exactly as a
      rational; arithmetic returns reduced fractions, so equal numbers are
      equal terms.  The sizes the function adds up are multiples of 0.25
      bounded by the array and buffer lengths, which binary64 represents
      exactly.  The model has one zero, and the quotient of the payload length
      by the size limit is the exact one;
    - a string is its sequence of UTF-16 code units;
    - a [value] is what a property read or [+] can yield here: a number,
      [undefined], a member inherited from [Object.prototype], or the string
      that [+] makes of such a member;
    - a call either returns or throws ([completion]). *)

From Stdlib Require Import List String Ascii Bool Arith ZArith NArith QArith Qround.
From Stdlib Require Import Permutation Lia Lqa.
From Stdlib.Strings Require Import Byte.
From Stdlib Require Qcanon.
Import ListNotations.

Set Implicit Arguments.

#[local] Arguments Qred : simpl never.
#[local] Arguments Qplus : simpl never.
#[local] Arguments Qmult : simpl never.
#[local] Arguments Qdiv : simpl never.
#[local] Arguments Qceiling : simpl never.
#[local] Arguments Qfloor : simpl never.

(** ** Numbers *)

Module Number.

Inductive number : Type :=
| NaN
| Infinity (negative : bool)
| Fin (q : Q).

Definition of_Z (z : Z) : number := Fin (inject_Z z).
Definition of_nat (n : nat) : number := of_Z (Z.of_nat n).

(** Sign of a finite value: [Lt], [Eq] or [Gt] against zero. *)
Definition sign (q : Q) : comparison := (Qnum q ?= 0)%Z.

Definition is_negative (q : Q) : bool :=
  match sign q with Lt => true | _ => false end.

(** [a + b] *)
Definition add (a b : number) : number :=
  match a, b with
  | NaN, _ | _, NaN => NaN
  | Infinity s, Infinity t => if Bool.eqb s t then Infinity s else NaN
  | Infinity s, Fin _ | Fin _, Infinity s => Infinity s
  | Fin x, Fin y => Fin (Qred (x + y))
  end.

(** [a * b] *)
Definition mul (a b : number) : number :=
  match a, b with
  | NaN, _ | _, NaN => NaN
  | Infinity s, Infinity t => Infinity (xorb s t)
  | Infinity s, Fin x | Fin x, Infinity s =>
      match sign x with
      | Eq => NaN
      | Lt => Infinity (negb s)
      | Gt => Infinity s
      end
  | Fin x, Fin y => Fin (Qred (x * y))
  end.

(** [a / b], the exact quotient.  The code's quotient is the nearest
    binary64 number; taken through [Math.ceil], the two can differ by one when
    the exact quotient lies just above a whole number, which a payload length
    over a negative limit that is not a whole number can produce. *)
Definition div (a b : number) : number :=
  match a, b with
  | NaN, _ | _, NaN => NaN
  | Infinity _, Infinity _ => NaN
  | Infinity s, Fin y => Infinity (xorb s (is_negative y))
  | Fin _, Infinity _ => Fin 0
  | Fin x, Fin y =>
      match sign y with
      | Eq =>
          match sign x with
          | Eq => NaN
          | Lt => Infinity true
          | Gt => Infinity false
          end
      | _ => Fin (Qred (x / y))
      end
  end.

(** [Math.ceil] on a number. *)
Definition ceil (a : number) : number :=
  match a with
  | Fin x => of_Z (Qceiling x)
  | _ => a
  end.

(** [Math.trunc] on a number: rounding towards zero. *)
Definition trunc (a : number) : number :=
  match a with
  | Fin x => of_Z (Z.quot (Qnum x) (Zpos (Qden x)))
  | _ => a
  end.

(** [a < b]; false as soon as one side is NaN. *)
Definition ltb (a b : number) : bool :=
  match a, b with
  | NaN, _ | _, NaN => false
  | Infinity s, Infinity t => s && negb t
  | Infinity s, Fin _ => s
  | Fin _, Infinity t => negb t
  | Fin x, Fin y => match x ?= y with Lt => true | _ => false end
  end.

(** [a >= b]; false as soon as one side is NaN. *)
Definition geb (a b : number) : bool :=
  match a, b with
  | NaN, _ | _, NaN => false
  | _, _ => negb (ltb a b)
  end.

(** [a === 0] *)
Definition is_zero (a : number) : bool :=
  match a with
  | Fin x => match sign x with Eq => true | _ => false end
  | _ => false
  end.

Definition is_nan (a : number) : bool :=
  match a with NaN => true | _ => false end.

End Number.
Import Number.

(** ** Strings *)

(** A JavaScript string: its UTF-16 code units, each below 65536. *)
Definition jsstring : Type := list N.

(** The string written by an ASCII literal. *)
Definition str (s : string) : jsstring :=
  map N_of_ascii (list_ascii_of_string s).

Fixpoint starts_with (s prefix : jsstring) : bool :=
  match prefix, s with
  | [], _ => true
  | _ :: _, [] => false
  | p :: prefix', c :: s' => N.eqb c p && starts_with s' prefix'
  end.

(** [s.includes(search)] *)
Fixpoint String_includes (s search : jsstring) : bool :=
  starts_with s search ||
  match s with
  | [] => false
  | _ :: s' => String_includes s' search
  end.

Fixpoint jsstring_eqb (s t : jsstring) : bool :=
  match s, t with
  | [], [] => true
  | c :: s', d :: t' => N.eqb c d && jsstring_eqb s' t'
  | _, _ => false
  end.

(** ** Values, property reads and the operators the code uses *)

(** [VInherited name] is the member of [Object.prototype] of that name: a
    function, or for [__proto__] the prototype object itself.  [VText] is a
    string that holds the text of such a member
    ([function ...() { [native code] }] or [[object Object]]); no such string
    reads as a numeric literal, and [+] with a string on one side makes a
    string that still holds that text. *)
Inductive value : Type :=
| VUndefined
| VNum (n : number)
| VInherited (name : jsstring)
| VText.

(** The names an object literal inherits from [Object.prototype]. *)
Definition Object_prototype : list jsstring :=
  map str
    ["constructor"; "__defineGetter__"; "__defineSetter__"; "hasOwnProperty";
     "__lookupGetter__"; "__lookupSetter__"; "isPrototypeOf";
     "propertyIsEnumerable"; "toString"; "valueOf"; "__proto__";
     "toLocaleString"]%string.

(** An object literal used as [Record<string, number>]: its own properties. *)
Definition record : Type := list (jsstring * number).

Fixpoint own_property (o : record) (key : jsstring) : option number :=
  match o with
  | [] => None
  | (k, v) :: o' => if jsstring_eqb key k then Some v else own_property o' key
  end.

(** [o[key]]: an own property, else what the prototype chain has under that
    name, else [undefined]. *)
Definition js_get (o : record) (key : jsstring) : value :=
  match own_property o key with
  | Some v => VNum v
  | None =>
      if existsb (jsstring_eqb key) Object_prototype
      then VInherited key
      else VUndefined
  end.

(** Truthiness: [undefined], [0] and [NaN] are falsy; functions, objects and
    non-empty strings are truthy. *)
Definition truthy (v : value) : bool :=
  match v with
  | VUndefined => false
  | VNum n => negb (is_zero n || is_nan n)
  | VInherited _ | VText => true
  end.

(** [a || b] *)
Definition js_or (a b : value) : value := if truthy a then a else b.

(** [a + b]: numeric addition when both sides are numbers or [undefined]
    (which converts to NaN), string concatenation as soon as one side is a
    string, a function or an object. *)
Definition js_plus (a b : value) : value :=
  match a, b with
  | VNum x, VNum y => VNum (add x y)
  | VUndefined, (VUndefined | VNum _) | VNum _, VUndefined => VNum NaN
  | _, _ => VText
  end.

(** [Math.ceil(v)]: the argument is converted to a number first. *)
Definition Math_ceil (v : value) : number :=
  match v with
  | VNum n => ceil n
  | VUndefined | VInherited _ | VText => NaN
  end.

(** ** Completions *)

Inductive error : Type :=
| TypeError.

Inductive completion (A : Type) : Type :=
| Returns (a : A)
| Throws (e : error).
Arguments Returns {A} a.
Arguments Throws {A} e.

Definition bind {A B} (c : completion A) (k : A -> completion B) : completion B :=
  match c with
  | Returns a => k a
  | Throws e => Throws e
  end.

Notation "x <- c ;; k" := (bind c (fun x => k))
  (at level 61, c at next level, right associativity).

(** [array.reduce(f, initialValue)]; without an initial value the first element
    seeds the accumulator and an empty array is a [TypeError]. *)
Definition Array_reduce {A} (f : A -> A -> A) (initialValue : option A)
    (array : list A) : completion A :=
  match initialValue, array with
  | Some init, _ => Returns (fold_left f array init)
  | None, first :: rest => Returns (fold_left f rest first)
  | None, [] => Throws TypeError
  end.

(** ** Buffers *)

Definition byte_of_N (n : N) : byte :=
  match Byte.of_N (n mod 256) with
  | Some b => b
  | None => x00
  end.

Definition is_high_surrogate (c : N) : bool := (0xD800 <=? c)%N && (c <=? 0xDBFF)%N.
Definition is_low_surrogate (c : N) : bool := (0xDC00 <=? c)%N && (c <=? 0xDFFF)%N.

(** U+FFFD, written in place of a surrogate that has no partner. *)
Definition replacement : list byte := [xef; xbf; xbd].

Definition utf8_1 (c : N) : list byte := [byte_of_N c].
Definition utf8_2 (c : N) : list byte :=
  [byte_of_N (0xC0 + c / 64); byte_of_N (0x80 + c mod 64)]%N.
Definition utf8_3 (c : N) : list byte :=
  [byte_of_N (0xE0 + c / 4096); byte_of_N (0x80 + (c / 64) mod 64);
   byte_of_N (0x80 + c mod 64)]%N.
Definition utf8_4 (c : N) : list byte :=
  [byte_of_N (0xF0 + c / 262144); byte_of_N (0x80 + (c / 4096) mod 64);
   byte_of_N (0x80 + (c / 64) mod 64); byte_of_N (0x80 + c mod 64)]%N.

(** [Buffer.from(s)]: the UTF-8 encoding of the string. *)
Fixpoint Buffer_from (s : jsstring) : list byte :=
  match s with
  | [] => []
  | c :: rest =>
      if (c <? 0x80)%N then utf8_1 c ++ Buffer_from rest
      else if (c <? 0x800)%N then utf8_2 c ++ Buffer_from rest
      else if is_high_surrogate c then
        match rest with
        | d :: rest' =>
            if is_low_surrogate d
            then utf8_4 (0x10000 + (c - 0xD800) * 1024 + (d - 0xDC00))%N
                   ++ Buffer_from rest'
            else replacement ++ Buffer_from rest
        | [] => replacement
        end
      else if is_low_surrogate c then replacement ++ Buffer_from rest
      else utf8_3 c ++ Buffer_from rest
  end.

(** The index arithmetic of [Buffer.prototype.slice]: truncate to an integer,
    count a negative index from the end, clamp into [0, length]. *)
Definition adjustOffset (offset : number) (length : nat) : nat :=
  let offset := trunc offset in
  if is_zero offset || is_nan offset then 0%nat
  else if ltb offset (of_nat 0) then
    let offset := add offset (of_nat length) in
    match offset with
    | Fin q => if ltb (of_nat 0) offset then Z.to_nat (Qfloor q) else 0%nat
    | _ => 0%nat
    end
  else if ltb offset (of_nat length) then
    match offset with
    | Fin q => Z.to_nat (Qfloor q)
    | _ => length
    end
  else length.

(** [buf.slice(start, end)] *)
Definition Buffer_slice (buf : list byte) (start end_ : number) : list byte :=
  let srcLength := List.length buf in
  let start := adjustOffset start srcLength in
  let end_ := adjustOffset end_ srcLength in
  let newLength := (if start <? end_ then end_ - start else 0)%nat in
  firstn newLength (skipn start buf).

(** ** The source: [vsize.ts] *)

Definition HEADER_VSIZE : number := Fin 10.
Definition SEGWIT_HEADER_EXTENSION_VSIZE : number := Fin 0.5.
Definition INPUT_VSIZE_LOOKUP : record :=
  [(str "P2PKH", Fin 148);
   (str "P2WPKH", Fin 68);
   (str "P2SH-P2WPKH", Fin 91)].
Definition SEGWIT_INPUT_WITNESS_ITEM_COUNT_VSIZE : number := Fin 0.25.
Definition OUTPUT_VSIZE_LOOKUP : record :=
  [(str "P2PKH", Fin 34);
   (str "P2WPKH", Fin 31);
   (str "P2SH-P2WPKH", Fin 32)].
Definition OP_RETURN_OUTPUT_PREFIX_VSIZE : number := Fin 12.

Definition PLACEHOLDER_VSIZE : number := Fin 79.
Definition TX_OP_RETURN_SIZE_LIMIT : number := Fin 80.

(** A parameter with a default: the default stands in for a missing
    argument. *)
Definition default_to {A} (d : A) (argument : option A) : A :=
  match argument with
  | Some a => a
  | None => d
  end.

Definition loadOPReturn (opReturn : jsstring) (opReturnSizeLimit : option number)
    : list byte :=
  let opReturnSizeLimit := default_to TX_OP_RETURN_SIZE_LIMIT opReturnSizeLimit in
  let buffer := Buffer_from opReturn in
  Buffer_slice buffer (Fin 0) opReturnSizeLimit.

(** [hasSegwit]: some input encoding has [P2WPKH] as a substring. *)
Definition hasSegwit (inputEncodings : list jsstring) : bool :=
  (1 <=? List.length
           (filter (fun encoding => String_includes encoding (str "P2WPKH"))
                   inputEncodings))%nat.

(** The body of [estimateVsize] up to its [return]: the value of the variable
    [vsize] that [Math.ceil] is then applied to. *)
Definition vsizeBeforeCeil (inputEncodings outputEncodings : list jsstring)
    (opReturn : option jsstring) (opReturnSizeLimit : option number)
    : completion value :=
  let opReturnSizeLimit := default_to TX_OP_RETURN_SIZE_LIMIT opReturnSizeLimit in
  let vsize := VNum HEADER_VSIZE in
  let hasSegwit := hasSegwit inputEncodings in
  let vsize :=
    if hasSegwit then js_plus vsize (VNum SEGWIT_HEADER_EXTENSION_VSIZE)
    else vsize in
  inputs <- Array_reduce (fun acc cur => js_plus acc cur) (Some (VNum (Fin 0)))
              (map (fun encoding =>
                      js_or (js_get INPUT_VSIZE_LOOKUP encoding) (VNum (Fin 0)))
                   inputEncodings) ;;
  let vsize := js_plus vsize inputs in
  let vsize :=
    if hasSegwit then js_plus vsize (VNum SEGWIT_INPUT_WITNESS_ITEM_COUNT_VSIZE)
    else vsize in
  outputs <- Array_reduce (fun acc cur => js_plus acc cur) (Some (VNum (Fin 0)))
               (map (fun encoding =>
                       js_or (js_get OUTPUT_VSIZE_LOOKUP encoding) (VNum (Fin 0)))
                    outputEncodings) ;;
  let vsize := js_plus vsize outputs in
  let vsize :=
    match opReturn with
    | Some opReturn =>
        let opReturnLength :=
          of_nat (List.length (loadOPReturn opReturn (Some opReturnSizeLimit))) in
        let vsize :=
          js_plus vsize
            (VNum (mul OP_RETURN_OUTPUT_PREFIX_VSIZE
                       (ceil (div opReturnLength opReturnSizeLimit)))) in
        js_plus vsize (VNum opReturnLength)
    | None => vsize
    end in
  Returns vsize.

Definition estimateVsize (inputEncodings outputEncodings : list jsstring)
    (opReturn : option jsstring) (opReturnSizeLimit : option number)
    : completion number :=
  vsize <- vsizeBeforeCeil inputEncodings outputEncodings opReturn
             opReturnSizeLimit ;;
  Returns (Math_ceil vsize).

(** ** Vocabulary of the statements *)

(** A size limit is positive when it is a finite number above zero or
    [+Infinity]. *)
Definition positive (limit : number) : Prop :=
  match limit with
  | Fin q => 0 < q
  | Infinity negative => negative = false
  | NaN => False
  end.

(** What the payload branch of [estimateVsize] makes of the sum [vsize]
    accumulated before it: with a payload string, the prefix overhead times
    [ceil(length / limit)] and the length of the loaded payload are added;
    without one the sum is left as it is. *)
Definition payload_term (opReturn : option jsstring)
    (opReturnSizeLimit : option number) (vsize : value) : value :=
  match opReturn with
  | Some opReturn =>
      let limit := default_to TX_OP_RETURN_SIZE_LIMIT opReturnSizeLimit in
      let opReturnLength :=
        of_nat (List.length (loadOPReturn opReturn (Some limit))) in
      js_plus
        (js_plus vsize
           (VNum (mul OP_RETURN_OUTPUT_PREFIX_VSIZE
                    (ceil (div opReturnLength limit)))))
        (VNum opReturnLength)
  | None => vsize
  end.

(** [encoding.includes('P2WPKH')] *)
Definition mentions_P2WPKH (encoding : jsstring) : bool :=
  String_includes encoding (str "P2WPKH").

(** What one [map] callback yields: [TABLE[encoding] || 0]. *)
Definition lookup_or_zero (table : record) (encoding : jsstring) : value :=
  js_or (js_get table encoding) (VNum (Fin 0)).

(** The [map]/[reduce] sum over a list of encodings, as the code forms it. *)
Definition reduce_sum (table : record) (encodings : list jsstring) : value :=
  fold_left js_plus (map (lookup_or_zero table) encodings) (VNum (Fin 0)).

(** The cost an encoding has as an own key of the table; zero without one. *)
Definition own_cost (table : record) (encoding : jsstring) : Q :=
  match own_property table encoding with
  | Some (Fin q) => q
  | _ => 0
  end.

Fixpoint total (table : record) (encodings : list jsstring) : Q :=
  match encodings with
  | [] => 0
  | e :: rest => own_cost table e + total table rest
  end.

(** No encoding of the list is a name inherited from [Object.prototype]. *)
Definition plain (encodings : list jsstring) : Prop :=
  Forall (fun e => existsb (jsstring_eqb e) Object_prototype = false) encodings.

(** The segwit overheads of a list of input encodings. *)
Definition segwit_overhead (inputEncodings : list jsstring) : Q :=
  if existsb mentions_P2WPKH inputEncodings then 0.5 + 0.25 else 0.

(** Header, table costs and segwit overheads, before rounding. *)
Definition plain_vsize (inputEncodings outputEncodings : list jsstring) : Q :=
  10 + total INPUT_VSIZE_LOOKUP inputEncodings
  + total OUTPUT_VSIZE_LOOKUP outputEncodings
  + segwit_overhead inputEncodings.

(** A value that is not an infinite number. *)
Definition not_infinite (v : value) : Prop :=
  match v with
  | VNum (Infinity _) => False
  | _ => True
  end.

(** How many encodings of the list are exactly [key]. *)
Definition count (key : jsstring) (encodings : list jsstring) : Z :=
  Z.of_nat (List.length (filter (fun e => jsstring_eqb e key) encodings)).

(** The indicator of [e] being [key]. *)
Definition is_key (e key : jsstring) : Z := if jsstring_eqb e key then 1 else 0.

(** ** The Solana client: what it makes of the answers of the RPC node

    [Solana] is the client class of the Solana provider.  Its methods are
    asynchronous; a method is modelled by what its promise settles to:
    [Fulfilled] with a value or [Failed], by a [TypeError] thrown in the body
    or by the rejection of a call that the body awaits.  The RPC object and
    the [BigNumber] constructor come from outside the class and are
    parameters. *)

Module Solana.

(** A value as an RPC answer holds it: parsed JSON, or [undefined]. *)
#[warnings="-register-all"]
Inductive json : Type :=
| JUndefined
| JNull
| JBool (b : bool)
| JNumber (n : number)
| JString (s : jsstring)
| JArray (items : list json)
| JObject (fields : list (jsstring * json)).

Inductive failure : Type :=
| TypeErrorThrown
| Rejected (reason : json).

Inductive outcome (A : Type) : Type :=
| Fulfilled (a : A)
| Failed (f : failure).
Arguments Fulfilled {A} a.
Arguments Failed {A} f.

Definition and_then {A B} (c : outcome A) (k : A -> outcome B) : outcome B :=
  match c with
  | Fulfilled a => k a
  | Failed f => Failed f
  end.

Notation "'let*' x ':=' c 'in' k" := (and_then c (fun x => k))
  (at level 10, x name, c at level 100, k at level 200).

Fixpoint field_of (fields : list (jsstring * json)) (name : jsstring) : json :=
  match fields with
  | [] => JUndefined
  | (k, v) :: rest => if jsstring_eqb name k then v else field_of rest name
  end.

(** [v.name], for the names this class reads, none of which a built-in
    prototype defines: a [TypeError] on [undefined] and [null], the field of
    an object, [undefined] on every other value. *)
Definition get (v : json) (name : string) : outcome json :=
  match v with
  | JUndefined | JNull => Failed TypeErrorThrown
  | JObject fields => Fulfilled (field_of fields (str name))
  | _ => Fulfilled JUndefined
  end.

(** [v?.name]: [undefined] where [v.name] would throw. *)
Definition get_optional (v : json) (name : string) : json :=
  match v with
  | JObject fields => field_of fields (str name)
  | _ => JUndefined
  end.

(** [v === null] *)
Definition is_null (v : json) : bool :=
  match v with
  | JNull => true
  | _ => false
  end.

(** [for (const x of items) body], the body working on the state [S]; the
    first failure ends the loop. *)
Fixpoint for_of {A S} (items : list A) (body : A -> S -> outcome S) (s : S)
    : outcome S :=
  match items with
  | [] => Fulfilled s
  | x :: rest => let* s' := body x s in for_of rest body s'
  end.

(** [result.push(x)] *)
Definition push {A} (result : list A) (x : A) : list A := result ++ [x].

Inductive RPC_METHODS : Type :=
| SEND_TRANSACTION
| GET_EPOCH_INFO
| GET_HEALTH
| GET_ACCOUNT_INFO
| GET_TOKEN_ACCOUNTS_BY_OWNER
| GET_FEES
| GET_TRANSACTION.

Definition BASE64 : jsstring := str "base64".
Definition JSON_PARSED : jsstring := str "jsonParsed".

(** The members of [TransactionStatus] that this class uses; the enum is
    declared in [types/provider]. *)
Inductive TransactionStatus : Type :=
| NOT_FOUND
| CONFIRM_AND_SUCCESS
| CONFIRM_BUT_FAILED.

(** The fields of [AddressInfo] that this class fills. *)
Record AddressInfo : Type := { existing : bool; balance : number }.

(** [balance.isFinite()] *)
Definition isFinite (n : number) : bool :=
  match n with
  | Fin _ => true
  | _ => false
  end.

(** What a promise that nobody awaits settles to. *)
Inductive promise (A : Type) : Type :=
| Resolves (a : A)
| Rejects (reason : json).
Arguments Resolves {A} a.
Arguments Rejects {A} reason.

(** [items.forEach((x, i) => body)], counting from [i]. *)
Fixpoint forEach_from {A State} (i : nat) (items : list A)
    (body : A -> nat -> State -> outcome State) (s : State) : outcome State :=
  match items with
  | [] => Fulfilled s
  | x :: rest => let* s' := body x i s in forEach_from (S i) rest body s'
  end.

Definition forEach {A S} (items : list A) (body : A -> nat -> S -> outcome S)
    (s : S) : outcome S :=
  forEach_from 0 items body s.

(** The code points of a string, a well-formed surrogate pair being one. *)
Fixpoint code_points (s : jsstring) : list jsstring :=
  match s with
  | [] => []
  | c :: rest =>
      if is_high_surrogate c then
        match rest with
        | d :: rest' =>
            if is_low_surrogate d then [c; d] :: code_points rest'
            else [c] :: code_points rest
        | [] => [[c]]
        end
      else [c] :: code_points rest
  end.

(** What [for (const x of v)] iterates over: the items of an array, the code
    points of a string; nothing else that JSON holds is iterable. *)
Definition iterate (v : json) : outcome (list json) :=
  match v with
  | JArray items => Fulfilled items
  | JString s => Fulfilled (map JString (code_points s))
  | _ => Failed TypeErrorThrown
  end.

(** [v === s] for a string [s]. *)
Definition is_string (v : json) (s : jsstring) : bool :=
  match v with
  | JString t => jsstring_eqb t s
  | _ => false
  end.

(** The fields of [CoinInfo] and of a request of [getBalances] that this
    class reads. *)
Record CoinInfo : Type := { tokenAddress : option jsstring }.
Record BalanceRequest : Type := { address : jsstring; coin : CoinInfo }.

(** Truthiness of [request.coin?.tokenAddress]: a string that is not
    empty. *)
Definition has_token (request : BalanceRequest) : bool :=
  match tokenAddress (coin request) with
  | Some (_ :: _) => true
  | _ => false
  end.

(** [requests[i]], then a property of it: a [TypeError] past the end. *)
Definition request_at (requests : list BalanceRequest) (i : nat)
    : outcome BalanceRequest :=
  match nth_error requests i with
  | Some request => Fulfilled request
  | None => Failed TypeErrorThrown
  end.

Section Client.

(** [this.rpc.batchCall(calls)], awaited. *)
Variable batchCall : list (RPC_METHODS * list json) -> outcome (list json).

(** [new BigNumber(v)] *)
Variable BigNumber : json -> number.

Definition getAddresses (addresses : list jsstring)
    : outcome (list (option AddressInfo)) :=
  let calls :=
    map (fun address =>
           (GET_ACCOUNT_INFO,
            [JString address; JObject [(str "encoding", JString JSON_PARSED)]]))
        addresses in
  let* resp := batchCall calls in
  let result := [] in
  for_of resp
    (fun accountInfo result =>
       match accountInfo with
       | JUndefined => Fulfilled (push result None)
       | _ =>
           let balance :=
             BigNumber (get_optional (get_optional accountInfo "value")
                          "lamports") in
           let existing := isFinite balance && geb balance (Fin 0) in
           Fulfilled
             (push result
                (Some {| existing := existing;
                         balance := if existing then balance else Fin 0 |}))
       end)
    result.

Definition getTransactionStatuses (txids : list jsstring)
    : outcome (list (option TransactionStatus)) :=
  let calls :=
    map (fun txid => (GET_TRANSACTION, [JString txid; JString JSON_PARSED]))
        txids in
  let result := [] in
  let* resp := batchCall calls in
  for_of resp
    (fun tx result =>
       match tx with
       | JUndefined => Fulfilled (push result None)
       | JNull => Fulfilled (push result (Some NOT_FOUND))
       | _ =>
           let* meta := get tx "meta" in
           let* err := get meta "err" in
           Fulfilled
             (push result
                (Some (if is_null err then CONFIRM_AND_SUCCESS
                       else CONFIRM_BUT_FAILED)))
       end)
    result.

Definition getBalances (requests : list BalanceRequest)
    : outcome (list (option number)) :=
  let calls :=
    map (fun request =>
           match tokenAddress (coin request) with
           | Some ((_ :: _) as mint) =>
               (GET_TOKEN_ACCOUNTS_BY_OWNER,
                [JString (address request);
                 JObject [(str "mint", JString mint)];
                 JObject [(str "encoding", JString JSON_PARSED)]])
           | _ =>
               (GET_ACCOUNT_INFO,
                [JString (address request);
                 JObject [(str "encoding", JString JSON_PARSED)]])
           end)
        requests in
  let* resps := batchCall calls in
  let result := [] in
  forEach resps
    (fun resp i result =>
       match resp with
       | JUndefined => Fulfilled (push result None)
       | _ =>
           let balance := Fin 0 in
           let* request := request_at requests i in
           if has_token request then
             let* value := get resp "value" in
             let* tokenAccounts := iterate value in
             let* balance :=
               for_of tokenAccounts
                 (fun tokenAccount balance =>
                    let* account := get tokenAccount "account" in
                    let* data := get account "data" in
                    let* parsed := get data "parsed" in
                    let* info := get parsed "info" in
                    let* owner := get info "owner" in
                    if is_string owner (address request) then
                      let* tokenAmount := get info "tokenAmount" in
                      let* amount := get tokenAmount "amount" in
                      Fulfilled (add balance (BigNumber amount))
                    else Fulfilled balance)
                 balance in
             Fulfilled (push result (Some balance))
           else
             let* value := get resp "value" in
             if negb (is_null value) then
               let* lamports := get value "lamports" in
               Fulfilled (push result (Some (BigNumber lamports)))
             else Fulfilled (push result (Some balance))
       end)
    result.

End Client.

(** [broadcastTransaction]: [this.rpc.call] is called inside [try] and its
    promise is not awaited, so [call] is what the call expression itself
    does: throw, or hand back a promise. *)
Definition broadcastTransaction
    (call : RPC_METHODS -> list json -> completion (promise json))
    (rawTx : jsstring) : outcome bool :=
  let isSuccess := true in
  let isSuccess :=
    match call SEND_TRANSACTION
            [JString rawTx; JObject [(str "encoding", JString BASE64)]] with
    | Returns _ => isSuccess
    | Throws _ => false
    end in
  Fulfilled isSuccess.

(** *** Vocabulary of the statements about the client *)

(** [v] is [undefined] or [null]. *)
Definition nullish (v : json) : bool :=
  match v with
  | JUndefined | JNull => true
  | _ => false
  end.

(** An answer about a transaction that the loop can read: none, [null], or
    one whose [meta] is neither [undefined] nor [null]. *)
Definition readable (tx : json) : bool :=
  match tx with
  | JUndefined | JNull => true
  | _ => negb (nullish (get_optional tx "meta"))
  end.

(** The status reported for a readable answer. *)
Definition status_of (tx : json) : option TransactionStatus :=
  match tx with
  | JUndefined => None
  | JNull => Some NOT_FOUND
  | _ =>
      Some (if is_null (get_optional (get_optional tx "meta") "err")
            then CONFIRM_AND_SUCCESS
            else CONFIRM_BUT_FAILED)
  end.

(** A balance that is a number and not below zero. *)
Definition sound_balance (n : number) : bool := isFinite n && geb n (Fin 0).

(** How one entry of the result of [getAddresses] relates to the answer it
    was made from, [lamports] being what [BigNumber] makes of
    [accountInfo?.value?.lamports]. *)
Definition address_entry (BigNumber : json -> number) (accountInfo : json)
    (entry : option AddressInfo) : Prop :=
  match entry with
  | None => accountInfo = JUndefined
  | Some info =>
      let lamports :=
        BigNumber (get_optional (get_optional accountInfo "value") "lamports") in
      accountInfo <> JUndefined
      /\ existing info = sound_balance lamports
      /\ balance info = (if sound_balance lamports then lamports else Fin 0)
      /\ sound_balance (balance info) = true
  end.

(** [tokenAccount.account.data.parsed.info], read without throwing. *)
Definition info_of (tokenAccount : json) : json :=
  get_optional
    (get_optional
       (get_optional (get_optional tokenAccount "account") "data") "parsed")
    "info".

(** The token account names [owner] as its owner. *)
Definition owned_by (owner : jsstring) (tokenAccount : json) : bool :=
  is_string (get_optional (info_of tokenAccount) "owner") owner.

(** [info.tokenAmount.amount] of a token account. *)
Definition amount_of (tokenAccount : json) : json :=
  get_optional (get_optional (info_of tokenAccount) "tokenAmount") "amount".

(** A token account the loop can read for [owner]: every object on the path
    to [info] is there, and so is [tokenAmount] if the account is owned by
    [owner]. *)
Definition readable_account (owner : jsstring) (tokenAccount : json) : bool :=
  negb (nullish tokenAccount)
  && negb (nullish (get_optional tokenAccount "account"))
  && negb (nullish (get_optional (get_optional tokenAccount "account") "data"))
  && negb (nullish
             (get_optional
                (get_optional (get_optional tokenAccount "account") "data")
                "parsed"))
  && negb (nullish (info_of tokenAccount))
  && (negb (owned_by owner tokenAccount)
      || negb (nullish (get_optional (info_of tokenAccount) "tokenAmount"))).

(** The amounts of the token accounts owned by [owner], added up. *)
Definition owned_sum (BigNumber : json -> number) (owner : jsstring)
    (tokenAccounts : list json) : number :=
  fold_left add
    (map (fun tokenAccount => BigNumber (amount_of tokenAccount))
         (filter (owned_by owner) tokenAccounts))
    (Fin 0).

(** An answer that [getBalances] can read for its request: none; for a token
    request an object whose [value] is an array of readable token accounts;
    for any other request a value, not [null], whose [value] is not
    [undefined]. *)
Definition readable_answer (request : BalanceRequest) (resp : json) : bool :=
  match resp with
  | JUndefined => true
  | JNull => false
  | _ =>
      if has_token request then
        match get_optional resp "value" with
        | JArray tokenAccounts =>
            forallb (readable_account (address request)) tokenAccounts
        | _ => false
        end
      else
        match get_optional resp "value" with
        | JUndefined => false
        | _ => true
        end
  end.

(** The balance reported for a readable answer. *)
Definition expected_balance (BigNumber : json -> number)
    (request : BalanceRequest) (resp : json) : option number :=
  match resp with
  | JUndefined => None
  | _ =>
      Some
        (if has_token request then
           match get_optional resp "value" with
           | JArray tokenAccounts =>
               owned_sum BigNumber (address request) tokenAccounts
           | _ => Fin 0
           end
         else
           match get_optional resp "value" with
           | JNull => Fin 0
           | value => BigNumber (get_optional value "lamports")
           end)
  end.

End Solana.

(** ** Arithmetic of the model *)

Section NumberLaws.

Lemma add_comm (a b : number) : add a b = add b a.
Proof.
  destruct a as [|s|x], b as [|t|y]; simpl; try reflexivity.
  - destruct s, t; reflexivity.
  - f_equal. apply Qred_complete. ring.
Qed.

Lemma add_assoc (a b c : number) : add (add a b) c = add a (add b c).
Proof.
  destruct a as [|s|x], b as [|t|y], c as [|u|z]; simpl; try reflexivity;
    try (destruct s, t; reflexivity);
    try (destruct t, u; reflexivity);
    try (destruct s, u; reflexivity).
  - destruct s, t, u; reflexivity.
  - f_equal. apply Qred_complete. rewrite !Qred_correct. ring.
Qed.

Lemma add_NaN_r (a : number) : add a NaN = NaN.
Proof. destruct a; reflexivity. Qed.

(** Sums come out reduced, so adding zero to a sum changes nothing. *)
Lemma add_zero_after_add (a b : number) : add (add a b) (Fin 0) = add a b.
Proof.
  destruct a as [|s|x], b as [|t|y]; simpl; try reflexivity.
  - destruct (Bool.eqb s t); reflexivity.
  - f_equal. apply Qred_complete. rewrite Qred_correct. ring.
Qed.

Lemma js_plus_comm (a b : value) : js_plus a b = js_plus b a.
Proof.
  destruct a, b; simpl; try reflexivity. now rewrite add_comm.
Qed.

Lemma js_plus_assoc (a b c : value) :
  js_plus (js_plus a b) c = js_plus a (js_plus b c).
Proof.
  destruct a, b, c; simpl; rewrite ?add_NaN_r, ?add_assoc; reflexivity.
Qed.



Lemma js_plus_zero_after_plus (a b : value) :
  js_plus (js_plus a b) (VNum (Fin 0)) = js_plus a b.
Proof.
  destruct a, b; simpl; try reflexivity. now rewrite add_zero_after_add.
Qed.

End NumberLaws.

(** ** Sums over encoding lists *)

(** A left fold with an associative and commutative operator does not depend
    on the order of the list. *)
Section FoldAC.

Variable A : Type.
Variable f : A -> A -> A.
Hypothesis f_assoc : forall a b c, f (f a b) c = f a (f b c).
Hypothesis f_comm : forall a b, f a b = f b a.

Lemma fold_left_swap (l : list A) (a x y : A) :
  fold_left f l (f (f a x) y) = fold_left f l (f (f a y) x).
Proof.
  f_equal. rewrite !f_assoc. f_equal. apply f_comm.
Qed.

Lemma fold_left_Permutation (l l' : list A) :
  Permutation l l' -> forall a, fold_left f l a = fold_left f l' a.
Proof.
  induction 1 as [| x l l' _ IH | x y l | l l' l'' _ IH1 _ IH2]; intro a; simpl.
  - reflexivity.
  - apply IH.
  - apply fold_left_swap.
  - now rewrite IH1.
Qed.

(** A summand may be added first. *)
Lemma fold_left_middle (l1 l2 : list A) (x a : A) :
  fold_left f (l1 ++ x :: l2) a = fold_left f (l1 ++ l2) (f a x).
Proof.
  rewrite (fold_left_Permutation (Permutation_sym (Permutation_middle l1 l2 x))).
  reflexivity.
Qed.

End FoldAC.

Section Sums.

Lemma fold_plus_Permutation (l l' : list value) :
  Permutation l l' ->
  forall a, fold_left js_plus l a = fold_left js_plus l' a.
Proof.
  apply fold_left_Permutation; [apply js_plus_assoc | apply js_plus_comm].
Qed.

Lemma fold_plus_middle (l1 l2 : list value) (x a : value) :
  fold_left js_plus (l1 ++ x :: l2) a
  = fold_left js_plus (l1 ++ l2) (js_plus a x).
Proof.
  apply fold_left_middle; [apply js_plus_assoc | apply js_plus_comm].
Qed.

Lemma hasSegwit_Permutation (l l' : list jsstring) :
  Permutation l l' -> hasSegwit l = hasSegwit l'.
Proof.
  intro H. unfold hasSegwit. f_equal.
  apply Permutation_length.
  induction H as [| x l l' _ IH | x y l | l l' l'' _ IH1 _ IH2]; simpl.
  - constructor.
  - destruct (String_includes x _); [now constructor | assumption].
  - destruct (String_includes x _), (String_includes y _);
      try apply perm_swap; apply Permutation_refl.
  - now transitivity (filter (fun e => String_includes e (str "P2WPKH")) l').
Qed.

End Sums.

(** ** The payload term *)

Section Payload.

Lemma Buffer_slice_nil (start end_ : number) : Buffer_slice [] start end_ = [].
Proof.
  unfold Buffer_slice. rewrite skipn_nil. apply firstn_nil.
Qed.

Lemma sign_pos (q : Q) : 0 < q -> sign q = Gt.
Proof.
  unfold sign, Qlt. simpl. intro H. apply Z.compare_gt_iff. lia.
Qed.

Lemma div_zero_positive (limit : number) :
  positive limit -> div (Fin 0) limit = Fin 0.
Proof.
  destruct limit as [|s|q]; simpl; intro H.
  - contradiction.
  - reflexivity.
  - rewrite (sign_pos H). reflexivity.
Qed.

End Payload.

(** ** Properties of [estimateVsize] *)

(** C4: [estimateVsize(["P2WPKH"], [])], called without payload and without
    size limit, returns 79, and the constant [PLACEHOLDER_VSIZE] is that
    value. *)
Theorem estimateVsize_placeholder :
  estimateVsize [str "P2WPKH"] [] None None = Returns (Fin 79)
  /\ PLACEHOLDER_VSIZE = Fin 79.
Proof.
  split; reflexivity.
Qed.

(** C5: the result depends only on the multiset of input encodings and the
    multiset of output encodings: permuting either list leaves the value that
    [estimateVsize] returns unchanged, whatever the payload and size limit. *)
Theorem estimateVsize_Permutation
    (inputEncodings inputEncodings' outputEncodings outputEncodings' : list jsstring)
    (opReturn : option jsstring) (opReturnSizeLimit : option number) :
  Permutation inputEncodings inputEncodings' ->
  Permutation outputEncodings outputEncodings' ->
  estimateVsize inputEncodings outputEncodings opReturn opReturnSizeLimit
  = estimateVsize inputEncodings' outputEncodings' opReturn opReturnSizeLimit.
Proof.
  intros Hin Hout.
  unfold estimateVsize, vsizeBeforeCeil, Array_reduce; simpl.
  rewrite (hasSegwit_Permutation Hin).
  rewrite (fold_plus_Permutation
             (Permutation_map
                (fun e => js_or (js_get INPUT_VSIZE_LOOKUP e) (VNum (Fin 0))) Hin)).
  rewrite (fold_plus_Permutation
             (Permutation_map
                (fun e => js_or (js_get OUTPUT_VSIZE_LOOKUP e) (VNum (Fin 0))) Hout)).
  reflexivity.
Qed.

Lemma estimateVsize_Permutation_witness :
  estimateVsize [str "P2PKH"; str "P2WPKH"] [str "P2WPKH"; str "P2SH-P2WPKH"]
    (Some (str "memo")) None
  = estimateVsize [str "P2WPKH"; str "P2PKH"] [str "P2SH-P2WPKH"; str "P2WPKH"]
      (Some (str "memo")) None.
Proof.
  apply estimateVsize_Permutation; apply perm_swap.
Defined.

(** C6: [estimateVsize] never throws: for all lists of strings, every payload
    string (or none) and every size limit (or none), the call returns a
    number. *)
Theorem estimateVsize_returns
    (inputEncodings outputEncodings : list jsstring)
    (opReturn : option jsstring) (opReturnSizeLimit : option number) :
  exists n : number,
    estimateVsize inputEncodings outputEncodings opReturn opReturnSizeLimit
    = Returns n.
Proof.
  unfold estimateVsize, vsizeBeforeCeil, Array_reduce; simpl.
  eexists. reflexivity.
Qed.

(** C9: with a positive size limit (given, or the default of 80), an empty
    payload string gives the same result as no payload at all: it adds
    neither payload bytes nor prefix overhead. *)
Theorem estimateVsize_empty_opReturn
    (inputEncodings outputEncodings : list jsstring)
    (opReturnSizeLimit : option number) :
  positive (default_to TX_OP_RETURN_SIZE_LIMIT opReturnSizeLimit) ->
  estimateVsize inputEncodings outputEncodings (Some []) opReturnSizeLimit
  = estimateVsize inputEncodings outputEncodings None opReturnSizeLimit.
Proof.
  intro Hpos.
  unfold estimateVsize, vsizeBeforeCeil, Array_reduce, loadOPReturn.
  set (limit := default_to TX_OP_RETURN_SIZE_LIMIT opReturnSizeLimit) in *.
  cbn [bind Buffer_from default_to].
  rewrite Buffer_slice_nil.
  change (of_nat (List.length [])) with (Fin 0).
  rewrite (div_zero_positive _ Hpos).
  change (mul OP_RETURN_OUTPUT_PREFIX_VSIZE (ceil (Fin 0))) with (Fin 0).
  now rewrite !js_plus_zero_after_plus.
Qed.

Lemma estimateVsize_empty_opReturn_witness :
  positive (default_to TX_OP_RETURN_SIZE_LIMIT (Some (Fin 40)))
  /\ estimateVsize [str "P2PKH"] [str "P2WPKH"] (Some []) (Some (Fin 40))
     = estimateVsize [str "P2PKH"] [str "P2WPKH"] None (Some (Fin 40)).
Proof.
  split; [reflexivity | apply estimateVsize_empty_opReturn; reflexivity].
Defined.

(** C3, as stated, fails: "XP2WPKH" is in neither lookup table, yet as an
    input it raises the estimate from 10 to 11, because it contains
    "P2WPKH" and so switches on the segwit overheads. *)
Lemma absent_input_changes_estimate :
  own_property INPUT_VSIZE_LOOKUP (str "XP2WPKH") = None
  /\ own_property OUTPUT_VSIZE_LOOKUP (str "XP2WPKH") = None
  /\ estimateVsize ([] ++ str "XP2WPKH" :: []) [] None None = Returns (Fin 11)
  /\ estimateVsize ([] ++ []) [] None None = Returns (Fin 10)
  /\ estimateVsize ([] ++ str "XP2WPKH" :: []) [] None None
     <> estimateVsize ([] ++ []) [] None None.
Proof.
  repeat split; try reflexivity. discriminate.
Qed.

(** C3, amended: an encoding for which the lookup finds nothing contributes
    zero.  As an output, the estimate with it equals the estimate with the
    entry left out; as an input likewise, provided the string does not contain
    "P2WPKH". *)
Theorem absent_encoding_contributes_zero (unknown : jsstring) :
  js_get INPUT_VSIZE_LOOKUP unknown = VUndefined ->
  js_get OUTPUT_VSIZE_LOOKUP unknown = VUndefined ->
  (forall before after outputEncodings opReturn opReturnSizeLimit,
      String_includes unknown (str "P2WPKH") = false ->
      estimateVsize (before ++ unknown :: after) outputEncodings opReturn
        opReturnSizeLimit
      = estimateVsize (before ++ after) outputEncodings opReturn
          opReturnSizeLimit)
  /\ (forall inputEncodings before after opReturn opReturnSizeLimit,
         estimateVsize inputEncodings (before ++ unknown :: after) opReturn
           opReturnSizeLimit
         = estimateVsize inputEncodings (before ++ after) opReturn
             opReturnSizeLimit).
Proof.
  intros Hin Hout. split.
  - intros before after outs op lim Hseg.
    unfold estimateVsize, vsizeBeforeCeil, Array_reduce.
    replace (hasSegwit (before ++ unknown :: after))
      with (hasSegwit (before ++ after)).
    + rewrite !map_app. cbn [map]. rewrite fold_plus_middle, Hin. reflexivity.
    + unfold hasSegwit. rewrite !filter_app. cbn [filter].
      now rewrite Hseg.
  - intros ins before after op lim.
    unfold estimateVsize, vsizeBeforeCeil, Array_reduce.
    rewrite !map_app. cbn [map]. rewrite fold_plus_middle, Hout. reflexivity.
Qed.

Lemma absent_encoding_contributes_zero_witness :
  js_get INPUT_VSIZE_LOOKUP (str "P2TR") = VUndefined
  /\ js_get OUTPUT_VSIZE_LOOKUP (str "P2TR") = VUndefined
  /\ estimateVsize ([str "P2PKH"] ++ str "P2TR" :: [str "P2WPKH"]) [] None None
     = estimateVsize ([str "P2PKH"] ++ [str "P2WPKH"]) [] None None
  /\ estimateVsize [] ([str "P2PKH"] ++ str "P2TR" :: []) None None
     = estimateVsize [] ([str "P2PKH"] ++ []) None None.
Proof.
  split; [reflexivity | split; [reflexivity | split]].
  - apply (proj1 (absent_encoding_contributes_zero (str "P2TR")
                    eq_refl eq_refl)).
    reflexivity.
  - apply (proj2 (absent_encoding_contributes_zero (str "P2TR")
                    eq_refl eq_refl)).
Defined.

(** ** Rounding up commutes with adding an integer *)

Section Ceil.

Lemma Qceiling_add_Z (x : Q) (k : Z) :
  Qceiling (x + inject_Z k) = (Qceiling x + k)%Z.
Proof.
  destruct x as [n d]. unfold Qceiling, Qfloor, Qopp, Qplus, inject_Z.
  cbn [Qnum Qden]. rewrite Pos.mul_1_r, Z.mul_1_r.
  replace (- (n + k * Z.pos d))%Z with (- n + (- k) * Z.pos d)%Z by ring.
  rewrite Z.div_add by discriminate. ring.
Qed.

Lemma Qred_inject_Z (z : Z) : Qred (inject_Z z) = inject_Z z.
Proof.
  apply Qcanon.Qred_identity. cbn [inject_Z Qnum Qden]. apply Z.gcd_1_r.
Qed.

Lemma add_of_Z (a b : Z) : add (of_Z a) (of_Z b) = of_Z (a + b).
Proof.
  unfold add, of_Z. now rewrite <- inject_Z_plus, Qred_inject_Z.
Qed.

Lemma ceil_add_of_Z (a : number) (k : Z) :
  ceil (add a (of_Z k)) = add (ceil a) (of_Z k).
Proof.
  destruct a as [| s | x]; try reflexivity.
  change (of_Z (Qceiling (Qred (x + inject_Z k)))
          = add (of_Z (Qceiling x)) (of_Z k)).
  rewrite add_of_Z. unfold of_Z. do 2 f_equal.
  rewrite <- Qceiling_add_Z.
  apply Qceiling_comp, Qred_correct.
Qed.

Lemma Math_ceil_plus_of_Z (v : value) (k : Z) :
  Math_ceil (js_plus v (VNum (of_Z k))) = add (Math_ceil v) (of_Z k).
Proof.
  destruct v as [| n | name |]; try reflexivity.
  apply ceil_add_of_Z.
Qed.

End Ceil.

(** ** Slicing a buffer at a positive integer limit *)

Section Slice.

Lemma ltb_of_Z (a b : Z) : ltb (of_Z a) (of_Z b) = (a <? b)%Z.
Proof.
  unfold ltb, of_Z, Qcompare, inject_Z. cbn [Qnum Qden].
  rewrite !Z.mul_1_r. unfold Z.ltb. reflexivity.
Qed.

Lemma trunc_of_Z (z : Z) : trunc (of_Z z) = of_Z z.
Proof.
  unfold trunc, of_Z, inject_Z. cbn [Qnum Qden]. now rewrite Z.quot_1_r.
Qed.

Lemma is_zero_of_Z (z : Z) : is_zero (of_Z z) = (z =? 0)%Z.
Proof.
  unfold is_zero, of_Z, sign, inject_Z. cbn [Qnum].
  now destruct z.
Qed.

Lemma adjustOffset_positive (limit : Z) (length : nat) :
  (0 < limit)%Z ->
  adjustOffset (of_Z limit) length = Nat.min (Z.to_nat limit) length.
Proof.
  intro H. unfold adjustOffset, of_nat.
  rewrite trunc_of_Z, is_zero_of_Z, !ltb_of_Z.
  replace (limit =? 0)%Z with false by (symmetry; apply Z.eqb_neq; lia).
  replace (limit <? Z.of_nat 0)%Z with false by (symmetry; apply Z.ltb_ge; lia).
  cbn [is_nan of_Z orb].
  destruct (Z.ltb_spec limit (Z.of_nat length)).
  - rewrite Qfloor_Z. lia.
  - lia.
Qed.

Lemma loadOPReturn_length (opReturn : jsstring) (limit : Z) :
  (0 < limit)%Z ->
  List.length (loadOPReturn opReturn (Some (of_Z limit)))
  = Nat.min (Z.to_nat limit) (List.length (Buffer_from opReturn)).
Proof.
  intro H. unfold loadOPReturn, Buffer_slice. cbn [default_to].
  rewrite (adjustOffset_positive _ H).
  change (adjustOffset (Fin 0) _) with 0%nat.
  cbn [skipn]. rewrite length_firstn.
  destruct (Nat.ltb_spec 0 (Nat.min (Z.to_nat limit)
                              (List.length (Buffer_from opReturn)))); lia.
Qed.

Lemma div_same (limit : Z) :
  (0 < limit)%Z -> div (of_Z limit) (of_Z limit) = Fin 1.
Proof.
  intro H. unfold div, of_Z.
  replace (sign (inject_Z limit)) with Gt
    by (symmetry; apply Z.compare_gt_iff; exact H).
  f_equal. change 1 with (Qred 1). apply Qred_complete.
  apply Qmult_inv_r. unfold Qeq, inject_Z. cbn [Qnum Qden]. lia.
Qed.

End Slice.

(** C1, as stated, fails.  With limit 2 and the 5-byte payload "hello"
    ([5 = 2 * 2 + 1]) the estimate rises from 10 to 24, not by [3 * 12] plus
    the truncated length 2 (to 48) nor by [3 * 12] plus the full length 5
    (to 51): the length that enters [ceil(length / limit)] is the length
    after truncation, so one prefix is counted. *)
Lemma opReturn_overhead_not_three_prefixes :
  List.length (Buffer_from (str "hello")) = 5%nat
  /\ estimateVsize [] [] None (Some (of_Z 2)) = Returns (of_Z 10)
  /\ estimateVsize [] [] (Some (str "hello")) (Some (of_Z 2)) = Returns (of_Z 24)
  /\ of_Z 24 <> add (of_Z 10) (of_Z (3 * 12 + 2))
  /\ of_Z 24 <> add (of_Z 10) (of_Z (3 * 12 + 5)).
Proof.
  repeat split; try reflexivity; discriminate.
Qed.

(** C1, amended: for every integer chunk limit above zero and every payload
    whose byte length is [2 * limit + 1], the estimate with the payload
    exceeds the estimate without it by [1 * 12] prefix-overhead virtual bytes
    plus the truncated payload length [limit]. *)
Theorem opReturn_overhead_one_prefix
    (inputEncodings outputEncodings : list jsstring)
    (opReturn : jsstring) (limit : Z) :
  (0 < limit)%Z ->
  Z.of_nat (List.length (Buffer_from opReturn)) = (2 * limit + 1)%Z ->
  exists without : number,
    estimateVsize inputEncodings outputEncodings None (Some (of_Z limit))
    = Returns without
    /\ estimateVsize inputEncodings outputEncodings (Some opReturn)
         (Some (of_Z limit))
       = Returns (add without (of_Z (1 * 12 + limit))).
Proof.
  intros Hpos Hlen.
  unfold estimateVsize, vsizeBeforeCeil, Array_reduce.
  cbn [bind default_to].
  eexists. split; [reflexivity |].
  rewrite (loadOPReturn_length _ Hpos).
  replace (Nat.min (Z.to_nat limit) (List.length (Buffer_from opReturn)))
    with (Z.to_nat limit) by lia.
  unfold of_nat. rewrite Z2Nat.id by lia.
  rewrite (div_same Hpos).
  change (mul OP_RETURN_OUTPUT_PREFIX_VSIZE (ceil (Fin 1))) with (of_Z 12).
  rewrite !Math_ceil_plus_of_Z, add_assoc, add_of_Z.
  reflexivity.
Qed.

Lemma opReturn_overhead_one_prefix_witness :
  (0 < 2)%Z
  /\ Z.of_nat (List.length (Buffer_from (str "hello"))) = (2 * 2 + 1)%Z
  /\ exists without : number,
      estimateVsize [str "P2PKH"] [str "P2PKH"] None (Some (of_Z 2))
      = Returns without
      /\ estimateVsize [str "P2PKH"] [str "P2PKH"] (Some (str "hello"))
           (Some (of_Z 2))
         = Returns (add without (of_Z (1 * 12 + 2))).
Proof.
  split; [reflexivity | split; [reflexivity |]].
  apply opReturn_overhead_one_prefix; reflexivity.
Defined.

(** ** The accumulated size in closed form *)

(** Case analysis on which key of a lookup table the encoding [e] is; the
    last goal is the one where it is none of them. *)
Ltac by_table_key e tac :=
  repeat (match goal with
          | |- context [jsstring_eqb e ?k] => destruct (jsstring_eqb e k)
          end; [tac |]).

Section ClosedForm.

Lemma lookup_or_zero_INPUT (e : jsstring) :
  existsb (jsstring_eqb e) Object_prototype = false ->
  lookup_or_zero INPUT_VSIZE_LOOKUP e = VNum (Fin (own_cost INPUT_VSIZE_LOOKUP e)).
Proof.
  intro H. unfold lookup_or_zero, js_get, own_cost, INPUT_VSIZE_LOOKUP.
  cbn [own_property].
  by_table_key e ltac:(reflexivity).
  now rewrite H.
Qed.

Lemma lookup_or_zero_OUTPUT (e : jsstring) :
  existsb (jsstring_eqb e) Object_prototype = false ->
  lookup_or_zero OUTPUT_VSIZE_LOOKUP e = VNum (Fin (own_cost OUTPUT_VSIZE_LOOKUP e)).
Proof.
  intro H. unfold lookup_or_zero, js_get, own_cost, OUTPUT_VSIZE_LOOKUP.
  cbn [own_property].
  by_table_key e ltac:(reflexivity).
  now rewrite H.
Qed.

(** A sum whose summands are all numbers is the number [total]. *)
Lemma fold_plus_numeric (table : record) (encodings : list jsstring) :
  (forall e, In e encodings ->
             lookup_or_zero table e = VNum (Fin (own_cost table e))) ->
  forall a : Q,
    fold_left js_plus (map (lookup_or_zero table) encodings) (VNum (Fin (Qred a)))
    = VNum (Fin (Qred (a + total table encodings))).
Proof.
  induction encodings as [| e rest IH]; intros Hnum a; cbn [map fold_left total].
  - do 2 f_equal. apply Qred_complete. ring.
  - rewrite (Hnum e (or_introl eq_refl)). cbn [js_plus add].
    replace (Qred (Qred a + own_cost table e))
      with (Qred (a + own_cost table e))
      by (apply Qred_complete; rewrite Qred_correct; reflexivity).
    rewrite IH by (intros; apply Hnum; now right).
    do 2 f_equal. apply Qred_complete. ring.
Qed.

Lemma reduce_sum_INPUT (encodings : list jsstring) :
  plain encodings ->
  reduce_sum INPUT_VSIZE_LOOKUP encodings
  = VNum (Fin (Qred (total INPUT_VSIZE_LOOKUP encodings))).
Proof.
  intro H. unfold reduce_sum. change (Fin 0) with (Fin (Qred 0)).
  rewrite fold_plus_numeric.
  - do 2 f_equal. apply Qred_complete. ring.
  - intros e He. apply lookup_or_zero_INPUT.
    unfold plain in H. rewrite Forall_forall in H. now apply H.
Qed.

Lemma reduce_sum_OUTPUT (encodings : list jsstring) :
  plain encodings ->
  reduce_sum OUTPUT_VSIZE_LOOKUP encodings
  = VNum (Fin (Qred (total OUTPUT_VSIZE_LOOKUP encodings))).
Proof.
  intro H. unfold reduce_sum. change (Fin 0) with (Fin (Qred 0)).
  rewrite fold_plus_numeric.
  - do 2 f_equal. apply Qred_complete. ring.
  - intros e He. apply lookup_or_zero_OUTPUT.
    unfold plain in H. rewrite Forall_forall in H. now apply H.
Qed.

Lemma hasSegwit_existsb (inputEncodings : list jsstring) :
  hasSegwit inputEncodings = existsb mentions_P2WPKH inputEncodings.
Proof.
  unfold hasSegwit. fold mentions_P2WPKH.
  induction inputEncodings as [| e rest IH]; cbn [filter existsb].
  - reflexivity.
  - destruct (mentions_P2WPKH e); [reflexivity | exact IH].
Qed.

(** The code's accumulation without payload, spelled out. *)
Lemma vsizeBeforeCeil_no_payload
    (inputEncodings outputEncodings : list jsstring)
    (opReturnSizeLimit : option number) :
  vsizeBeforeCeil inputEncodings outputEncodings None opReturnSizeLimit
  = Returns
      (if hasSegwit inputEncodings
       then js_plus
              (js_plus
                 (js_plus
                    (js_plus (VNum HEADER_VSIZE)
                             (VNum SEGWIT_HEADER_EXTENSION_VSIZE))
                    (reduce_sum INPUT_VSIZE_LOOKUP inputEncodings))
                 (VNum SEGWIT_INPUT_WITNESS_ITEM_COUNT_VSIZE))
              (reduce_sum OUTPUT_VSIZE_LOOKUP outputEncodings)
       else js_plus
              (js_plus (VNum HEADER_VSIZE)
                       (reduce_sum INPUT_VSIZE_LOOKUP inputEncodings))
              (reduce_sum OUTPUT_VSIZE_LOOKUP outputEncodings)).
Proof.
  unfold vsizeBeforeCeil, Array_reduce, reduce_sum, lookup_or_zero.
  cbn [bind]. now destruct (hasSegwit inputEncodings).
Qed.

(** Without payload and without inherited names, the accumulated size is
    one number. *)
Lemma vsizeBeforeCeil_plain
    (inputEncodings outputEncodings : list jsstring)
    (opReturnSizeLimit : option number) :
  plain inputEncodings ->
  plain outputEncodings ->
  vsizeBeforeCeil inputEncodings outputEncodings None opReturnSizeLimit
  = Returns (VNum (Fin (Qred (plain_vsize inputEncodings outputEncodings)))).
Proof.
  intros Hin Hout. unfold plain_vsize, segwit_overhead.
  rewrite vsizeBeforeCeil_no_payload, hasSegwit_existsb.
  rewrite (reduce_sum_INPUT Hin), (reduce_sum_OUTPUT Hout).
  destruct (existsb mentions_P2WPKH inputEncodings);
    cbn [js_plus add HEADER_VSIZE SEGWIT_HEADER_EXTENSION_VSIZE
         SEGWIT_INPUT_WITNESS_ITEM_COUNT_VSIZE];
    do 3 f_equal; apply Qred_complete; rewrite !Qred_correct; ring.
Qed.

(** On every call the payload branch works on the sum accumulated without
    payload. *)
Lemma vsizeBeforeCeil_payload_term
    (inputEncodings outputEncodings : list jsstring)
    (opReturn : option jsstring) (opReturnSizeLimit : option number)
    (vsize : value) :
  vsizeBeforeCeil inputEncodings outputEncodings None opReturnSizeLimit
  = Returns vsize ->
  vsizeBeforeCeil inputEncodings outputEncodings opReturn opReturnSizeLimit
  = Returns (payload_term opReturn opReturnSizeLimit vsize).
Proof.
  unfold vsizeBeforeCeil, Array_reduce. cbn [bind].
  intro H. injection H as <-. destruct opReturn; reflexivity.
Qed.

End ClosedForm.

(** C2, as stated, fails: the only input "P2SH-P2WPKH" is not the
    native-segwit encoding "P2WPKH", yet both overheads are added: the
    accumulated size is 101.75 = 10 + 91 + 0.5 + 0.25 and the estimate 102,
    where header plus table cost alone is 101. *)
Lemma wrapped_segwit_input_adds_overheads :
  existsb (jsstring_eqb (str "P2WPKH")) [str "P2SH-P2WPKH"] = false
  /\ total INPUT_VSIZE_LOOKUP [str "P2SH-P2WPKH"] == 91
  /\ vsizeBeforeCeil [str "P2SH-P2WPKH"] [] None None
     = Returns (VNum (Fin (407 # 4)))
  /\ ~ (407 # 4 == 10 + 91)
  /\ estimateVsize [str "P2SH-P2WPKH"] [] None None = Returns (Fin 102).
Proof.
  repeat split; try reflexivity. discriminate.
Qed.

(** C2, amended: on every call, with or without payload, and for all lists
    of encodings that name no inherited member, the size accumulated before
    the payload branch is the header 10, plus the table costs of inputs and
    outputs, plus 0.5 + 0.25 exactly when at least one input encoding
    contains "P2WPKH" as a substring -- each overhead once, however many such
    inputs there are; the payload branch works on that sum and the estimate
    is the outcome rounded up. *)
Theorem segwit_overheads_added_once
    (inputEncodings outputEncodings : list jsstring)
    (opReturn : option jsstring) (opReturnSizeLimit : option number) :
  plain inputEncodings ->
  plain outputEncodings ->
  exists vsize : Q,
    vsize == 10 + total INPUT_VSIZE_LOOKUP inputEncodings
                + total OUTPUT_VSIZE_LOOKUP outputEncodings
                + (if existsb mentions_P2WPKH inputEncodings
                   then 0.5 + 0.25 else 0)
    /\ vsizeBeforeCeil inputEncodings outputEncodings opReturn
         opReturnSizeLimit
       = Returns (payload_term opReturn opReturnSizeLimit (VNum (Fin vsize)))
    /\ estimateVsize inputEncodings outputEncodings opReturn
         opReturnSizeLimit
       = Returns
           (Math_ceil
              (payload_term opReturn opReturnSizeLimit (VNum (Fin vsize))))
    /\ estimateVsize inputEncodings outputEncodings None opReturnSizeLimit
       = Returns (of_Z (Qceiling vsize)).
Proof.
  intros Hin Hout.
  pose proof (vsizeBeforeCeil_plain opReturnSizeLimit Hin Hout) as Hplain.
  pose proof (vsizeBeforeCeil_payload_term opReturn Hplain) as Hpay.
  unfold estimateVsize. rewrite Hpay, Hplain. cbn [bind].
  eexists. split; [apply Qred_correct |].
  split; [reflexivity | split; reflexivity].
Qed.

Lemma segwit_overheads_added_once_witness :
  plain [str "P2WPKH"; str "P2SH-P2WPKH"; str "P2WPKH"]
  /\ plain [str "P2PKH"]
  /\ exists vsize : Q,
      vsize == 10 + total INPUT_VSIZE_LOOKUP
                         [str "P2WPKH"; str "P2SH-P2WPKH"; str "P2WPKH"]
                  + total OUTPUT_VSIZE_LOOKUP [str "P2PKH"]
                  + (if existsb mentions_P2WPKH
                          [str "P2WPKH"; str "P2SH-P2WPKH"; str "P2WPKH"]
                     then 0.5 + 0.25 else 0)
      /\ vsizeBeforeCeil [str "P2WPKH"; str "P2SH-P2WPKH"; str "P2WPKH"]
           [str "P2PKH"] (Some (str "memo")) (Some (Fin 3))
         = Returns
             (payload_term (Some (str "memo")) (Some (Fin 3))
                (VNum (Fin vsize)))
      /\ estimateVsize [str "P2WPKH"; str "P2SH-P2WPKH"; str "P2WPKH"]
           [str "P2PKH"] (Some (str "memo")) (Some (Fin 3))
         = Returns
             (Math_ceil
                (payload_term (Some (str "memo")) (Some (Fin 3))
                   (VNum (Fin vsize))))
      /\ estimateVsize [str "P2WPKH"; str "P2SH-P2WPKH"; str "P2WPKH"]
           [str "P2PKH"] None (Some (Fin 3))
         = Returns (of_Z (Qceiling vsize)).
Proof.
  assert (Hin : plain [str "P2WPKH"; str "P2SH-P2WPKH"; str "P2WPKH"])
    by (repeat constructor).
  assert (Hout : plain [str "P2PKH"]) by (repeat constructor).
  split; [exact Hin | split; [exact Hout |]].
  exact (segwit_overheads_added_once (Some (str "memo")) (Some (Fin 3))
           Hin Hout).
Defined.


(** C10 fails on an encoding that names an inherited member of the lookup
    object: with no payload the estimate of an empty transaction is 10, and
    appending the input "constructor" (or the output "toString") makes it
    NaN, which is not at least 10. *)
Theorem inherited_name_makes_estimate_NaN :
  estimateVsize [] [] None None = Returns (Fin 10)
  /\ js_get INPUT_VSIZE_LOOKUP (str "constructor")
     = VInherited (str "constructor")
  /\ estimateVsize ([] ++ [str "constructor"]) [] None None = Returns NaN
  /\ estimateVsize [] ([] ++ [str "toString"]) None None = Returns NaN
  /\ geb NaN (Fin 10) = false.
Proof.
  repeat split.
Qed.

(** ** Monotonicity on lists without inherited names *)

Section Monotone.

Lemma own_cost_INPUT_nonneg (e : jsstring) : 0 <= own_cost INPUT_VSIZE_LOOKUP e.
Proof.
unfold own_cost, INPUT_VSIZE_LOOKUP. cbn [own_property].
by_table_key e ltac:(discriminate).
discriminate.
Qed.

Lemma own_cost_OUTPUT_nonneg (e : jsstring) : 0 <= own_cost OUTPUT_VSIZE_LOOKUP e.
Proof.
unfold own_cost, OUTPUT_VSIZE_LOOKUP. cbn [own_property].
by_table_key e ltac:(discriminate).
discriminate.
Qed.

Lemma total_nonneg (table : record) (encodings : list jsstring) :
(forall e, 0 <= own_cost table e) -> 0 <= total table encodings.
Proof.
intro H. induction encodings as [| e rest IH]; cbn [total].
- apply Qle_refl.
- rewrite <- (Qplus_0_r 0). apply Qplus_le_compat; [apply H | exact IH].
Qed.

Lemma total_app (table : record) (l1 l2 : list jsstring) :
total table (l1 ++ l2) == total table l1 + total table l2.
Proof.
induction l1 as [| e rest IH]; cbn [app total].
- ring.
- rewrite IH. ring.
Qed.

Lemma segwit_overhead_nonneg (l : list jsstring) : 0 <= segwit_overhead l.
Proof.
unfold segwit_overhead. destruct (existsb mentions_P2WPKH l); discriminate.
Qed.

Lemma segwit_overhead_app (l1 l2 : list jsstring) :
segwit_overhead l1 <= segwit_overhead (l1 ++ l2).
Proof.
unfold segwit_overhead. rewrite existsb_app.
destruct (existsb mentions_P2WPKH l1), (existsb mentions_P2WPKH l2);
  cbn [orb]; discriminate.
Qed.

Lemma plain_vsize_header (ins outs : list jsstring) : 10 <= plain_vsize ins outs.
Proof.
unfold plain_vsize.
pose proof (@total_nonneg INPUT_VSIZE_LOOKUP ins own_cost_INPUT_nonneg).
pose proof (@total_nonneg OUTPUT_VSIZE_LOOKUP outs own_cost_OUTPUT_nonneg).
pose proof (segwit_overhead_nonneg ins).
setoid_replace 10 with (10 + 0 + 0 + 0) at 1 by ring.
repeat apply Qplus_le_compat; auto. apply Qle_refl.
Qed.

Lemma plain_vsize_more_inputs (ins outs more : list jsstring) :
plain_vsize ins outs <= plain_vsize (ins ++ more) outs.
Proof.
unfold plain_vsize. rewrite total_app.
pose proof (@total_nonneg INPUT_VSIZE_LOOKUP more own_cost_INPUT_nonneg).
pose proof (segwit_overhead_app ins more).
setoid_replace (10 + total INPUT_VSIZE_LOOKUP ins)
  with (10 + (total INPUT_VSIZE_LOOKUP ins + 0)) by ring.
rewrite <- !Qplus_assoc.
repeat apply Qplus_le_compat; auto; apply Qle_refl.
Qed.

Lemma plain_vsize_more_outputs (ins outs more : list jsstring) :
plain_vsize ins outs <= plain_vsize ins (outs ++ more).
Proof.
unfold plain_vsize. rewrite total_app.
pose proof (@total_nonneg OUTPUT_VSIZE_LOOKUP more own_cost_OUTPUT_nonneg).
setoid_replace (total OUTPUT_VSIZE_LOOKUP outs)
  with (total OUTPUT_VSIZE_LOOKUP outs + 0) at 1 by ring.
repeat apply Qplus_le_compat; auto; apply Qle_refl.
Qed.

Lemma estimateVsize_plain (ins outs : list jsstring) (lim : option number) :
plain ins -> plain outs ->
estimateVsize ins outs None lim
= Returns (of_Z (Qceiling (plain_vsize ins outs))).
Proof.
intros Hin Hout. unfold estimateVsize.
rewrite (vsizeBeforeCeil_plain _ Hin Hout). cbn [bind Math_ceil ceil].
now rewrite (Qceiling_comp _ _ (Qred_correct _)).
Qed.

(** Where no encoding names an inherited member, and without payload,
  appending an encoding to either list never lowers the estimate, and the
  estimate is at least the header size 10. *)
Lemma estimateVsize_monotone_plain
  (ins outs : list jsstring) (e : jsstring) (lim : option number) :
plain ins -> plain outs -> plain [e] ->
exists before more_in more_out : Z,
  estimateVsize ins outs None lim = Returns (of_Z before)
  /\ estimateVsize (ins ++ [e]) outs None lim = Returns (of_Z more_in)
  /\ estimateVsize ins (outs ++ [e]) None lim = Returns (of_Z more_out)
  /\ (10 <= before)%Z /\ (before <= more_in)%Z /\ (before <= more_out)%Z.
Proof.
intros Hin Hout He.
assert (Hin' : plain (ins ++ [e])) by (apply Forall_app; now split).
assert (Hout' : plain (outs ++ [e])) by (apply Forall_app; now split).
do 3 eexists.
rewrite (estimateVsize_plain _ Hin Hout), (estimateVsize_plain _ Hin' Hout),
  (estimateVsize_plain _ Hin Hout').
repeat split.
- rewrite <- (Qceiling_Z 10). apply Qceiling_resp_le, plain_vsize_header.
- apply Qceiling_resp_le, plain_vsize_more_inputs.
- apply Qceiling_resp_le, plain_vsize_more_outputs.
Qed.

End Monotone.

(** ** What [loadOPReturn] keeps of a payload *)

Section Truncation.

Lemma adjustOffset_nonneg (t : Z) (length : nat) :
  (0 <= t)%Z ->
  adjustOffset (of_Z t) length = Nat.min (Z.to_nat t) length.
Proof.
  intro H. destruct (Z.eq_dec t 0) as [-> | Hne].
  - reflexivity.
  - apply adjustOffset_positive. lia.
Qed.

(** Only the integer part of an index matters. *)
Lemma adjustOffset_Fin (q : Q) (length : nat) :
  adjustOffset (Fin q) length
  = adjustOffset (of_Z (Z.quot (Qnum q) (Zpos (Qden q)))) length.
Proof.
  unfold adjustOffset. now rewrite trunc_of_Z.
Qed.

Lemma quot_Qfloor (q : Q) :
  0 <= q -> Z.quot (Qnum q) (Zpos (Qden q)) = Qfloor q.
Proof.
  destruct q as [n d]. unfold Qle, Qfloor. cbn [Qnum Qden]. intro H.
  apply Z.quot_div_nonneg; lia.
Qed.

Lemma firstn_min_length {A} (n : nat) (l : list A) :
  firstn (Nat.min n (List.length l)) l = firstn n l.
Proof.
  destruct (Nat.le_gt_cases n (List.length l)) as [H | H].
  - now rewrite Nat.min_l.
  - rewrite Nat.min_r, firstn_all, firstn_all2 by lia. reflexivity.
Qed.

(** A slice from index 0 is a prefix. *)
Lemma Buffer_slice_from_0 (buf : list byte) (end_ : number) :
  Buffer_slice buf (Fin 0) end_
  = firstn (adjustOffset end_ (List.length buf)) buf.
Proof.
  unfold Buffer_slice.
  change (adjustOffset (Fin 0) (List.length buf)) with 0%nat.
  cbn [skipn]. rewrite Nat.sub_0_r.
  destruct (adjustOffset end_ (List.length buf)); reflexivity.
Qed.

Lemma loadOPReturn_nonneg (opReturn : jsstring) (limit : Q) :
  0 <= limit ->
  loadOPReturn opReturn (Some (Fin limit))
  = firstn (Z.to_nat (Qfloor limit)) (Buffer_from opReturn).
Proof.
  intro H. unfold loadOPReturn. cbn [default_to].
  rewrite Buffer_slice_from_0, adjustOffset_Fin, (quot_Qfloor H).
  rewrite adjustOffset_nonneg, firstn_min_length; [reflexivity |].
  rewrite <- (Qfloor_Z 0). now apply Qfloor_resp_le.
Qed.

Lemma loadOPReturn_negative (opReturn : jsstring) (k : Z) :
  (0 < k)%Z ->
  loadOPReturn opReturn (Some (of_Z (- k)))
  = firstn (List.length (Buffer_from opReturn) - Z.to_nat k)
           (Buffer_from opReturn).
Proof.
  intro Hk. unfold loadOPReturn. cbn [default_to].
  rewrite Buffer_slice_from_0. f_equal.
  set (n := List.length (Buffer_from opReturn)).
  unfold adjustOffset, of_nat.
  rewrite trunc_of_Z, is_zero_of_Z, ltb_of_Z, add_of_Z.
  replace (- k =? 0)%Z with false by (symmetry; apply Z.eqb_neq; lia).
  replace (- k <? Z.of_nat 0)%Z with true by (symmetry; apply Z.ltb_lt; lia).
  cbn [is_nan of_Z orb]. fold (of_Z (- k + Z.of_nat n)) (of_Z (Z.of_nat 0)).
  rewrite ltb_of_Z, Qfloor_Z.
  destruct (Z.ltb_spec (Z.of_nat 0) (- k + Z.of_nat n)); lia.
Qed.

End Truncation.

(** X1: with a finite size limit that is not negative, [loadOPReturn] returns
    the first [floor limit] bytes of the UTF-8 encoding of the payload (all of
    them when there are fewer), and without a limit the first 80. *)
Theorem loadOPReturn_truncates (opReturn : jsstring) (limit : Q) :
  0 <= limit ->
  loadOPReturn opReturn (Some (Fin limit))
  = firstn (Z.to_nat (Qfloor limit)) (Buffer_from opReturn)
  /\ loadOPReturn opReturn None = firstn 80 (Buffer_from opReturn).
Proof.
  intro H. split.
  - now apply loadOPReturn_nonneg.
  - unfold loadOPReturn. cbn [default_to]. rewrite Buffer_slice_from_0.
    change TX_OP_RETURN_SIZE_LIMIT with (of_Z 80).
    rewrite adjustOffset_nonneg by lia. apply firstn_min_length.
Qed.

Lemma loadOPReturn_truncates_witness :
  0 <= 2.5
  /\ loadOPReturn (str "hello") (Some (Fin 2.5))
     = firstn (Z.to_nat (Qfloor 2.5)) (Buffer_from (str "hello"))
  /\ loadOPReturn (str "hello") None = firstn 80 (Buffer_from (str "hello")).
Proof.
  split; [discriminate | apply loadOPReturn_truncates; discriminate].
Defined.

(** X2: the size limits that are not positive numbers.  NaN and [-Infinity]
    leave nothing of the payload, [+Infinity] leaves all of it, and a negative
    integer [-k] drops the last [k] bytes instead of keeping the first ones. *)
Theorem loadOPReturn_other_limits (opReturn : jsstring) :
  loadOPReturn opReturn (Some NaN) = []
  /\ loadOPReturn opReturn (Some (Infinity true)) = []
  /\ loadOPReturn opReturn (Some (Infinity false)) = Buffer_from opReturn
  /\ forall k : Z,
      (0 < k)%Z ->
      loadOPReturn opReturn (Some (of_Z (- k)))
      = firstn (List.length (Buffer_from opReturn) - Z.to_nat k)
               (Buffer_from opReturn).
Proof.
  repeat split.
  - unfold loadOPReturn. cbn [default_to]. rewrite Buffer_slice_from_0.
    apply firstn_all.
  - intros k Hk. now apply loadOPReturn_negative.
Qed.

Lemma loadOPReturn_other_limits_witness :
  (0 < 2)%Z
  /\ loadOPReturn (str "hello") (Some (of_Z (- 2)))
     = firstn (List.length (Buffer_from (str "hello")) - Z.to_nat 2)
              (Buffer_from (str "hello")).
Proof.
  split; [reflexivity |].
  exact (proj2 (proj2 (proj2 (loadOPReturn_other_limits (str "hello"))))
           2%Z eq_refl).
Defined.

(** ** What a payload adds to the estimate *)

Section PayloadTerm.

Lemma mul_of_Z (a b : Z) : mul (of_Z a) (of_Z b) = of_Z (a * b).
Proof.
  unfold mul, of_Z. now rewrite <- inject_Z_mult, Qred_inject_Z.
Qed.

(** When [ceil(length / limit)] is the integer [chunks], the payload adds
    [12 * chunks + length] to the estimate. *)
Lemma estimateVsize_payload_chunks
    (ins outs : list jsstring) (opReturn : jsstring) (lim : option number)
    (chunks : Z) :
  let limit := default_to TX_OP_RETURN_SIZE_LIMIT lim in
  let kept := List.length (loadOPReturn opReturn (Some limit)) in
  ceil (div (of_nat kept) limit) = of_Z chunks ->
  exists without : number,
    estimateVsize ins outs None lim = Returns without
    /\ estimateVsize ins outs (Some opReturn) lim
       = Returns (add without (of_Z (12 * chunks + Z.of_nat kept))).
Proof.
  intros limit kept Hchunks.
  unfold estimateVsize, vsizeBeforeCeil, Array_reduce. cbn [bind].
  fold limit. fold kept. rewrite Hchunks.
  eexists. split; [reflexivity |].
  change OP_RETURN_OUTPUT_PREFIX_VSIZE with (of_Z 12).
  rewrite mul_of_Z. unfold of_nat.
  now rewrite !Math_ceil_plus_of_Z, add_assoc, add_of_Z.
Qed.

Lemma Qceiling_unit (x : Q) : 0 < x -> x <= 1 -> Qceiling x = 1%Z.
Proof.
  intros Hpos Hle.
  pose proof (Qle_ceiling x) as Hup.
  pose proof (Qceiling_lt x) as Hlow.
  assert (0 < Qceiling x)%Z
    by (rewrite Zlt_Qlt; eapply Qlt_le_trans; eassumption).
  assert (Qceiling x - 1 < 1)%Z
    by (rewrite Zlt_Qlt; eapply Qlt_le_trans; eassumption).
  lia.
Qed.

Lemma sign_neg (q : Q) : q < 0 -> sign q = Lt.
Proof.
  unfold sign, Qlt. simpl. intro H. apply Z.compare_lt_iff. lia.
Qed.

(** Part of a chunk counts as one chunk. *)
Lemma ceil_div_within (kept : nat) (limit : Q) :
  (0 < kept)%nat -> inject_Z (Z.of_nat kept) <= limit ->
  ceil (div (of_nat kept) (Fin limit)) = of_Z 1.
Proof.
  intros Hkept Hle.
  assert (Hk : 0 < inject_Z (Z.of_nat kept))
    by (change 0 with (inject_Z 0); rewrite <- Zlt_Qlt; lia).
  assert (Hpos : 0 < limit) by (eapply Qlt_le_trans; eassumption).
  unfold div, of_nat, of_Z. rewrite (sign_pos Hpos). cbn [ceil]. unfold of_Z.
  do 2 f_equal.
  rewrite (Qceiling_comp _ _ (Qred_correct _)).
  apply Qceiling_unit.
  - apply Qlt_shift_div_l; [exact Hpos |]. now rewrite Qmult_0_l.
  - apply Qle_shift_div_r; [exact Hpos |]. now rewrite Qmult_1_l.
Qed.

Lemma Math_ceil_after_NaN (v : value) (n : number) :
  Math_ceil (js_plus (js_plus v (VNum NaN)) (VNum n)) = NaN.
Proof.
  destruct v as [| m | name |]; try reflexivity.
  cbn [js_plus]. now rewrite add_NaN_r.
Qed.

End PayloadTerm.

(** X3: with a positive finite size limit (given, or the default of 80), a
    payload adds its kept length -- the smaller of its byte length and
    [floor limit] -- and one prefix overhead of 12 if any byte is kept; it
    never adds a second prefix, however long it is. *)
Theorem opReturn_adds_one_prefix
    (inputEncodings outputEncodings : list jsstring) (opReturn : jsstring)
    (opReturnSizeLimit : option number) (limit : Q) :
  default_to TX_OP_RETURN_SIZE_LIMIT opReturnSizeLimit = Fin limit ->
  0 < limit ->
  let kept :=
    Nat.min (Z.to_nat (Qfloor limit)) (List.length (Buffer_from opReturn)) in
  exists without : number,
    estimateVsize inputEncodings outputEncodings None opReturnSizeLimit
    = Returns without
    /\ estimateVsize inputEncodings outputEncodings (Some opReturn)
         opReturnSizeLimit
       = Returns (add without
                    (of_Z (if (kept =? 0)%nat then 0
                           else 12 + Z.of_nat kept))).
Proof.
  intros Hlim Hpos kept.
  assert (Hkept : List.length
                    (loadOPReturn opReturn
                       (Some (default_to TX_OP_RETURN_SIZE_LIMIT
                                opReturnSizeLimit))) = kept).
  { rewrite Hlim, loadOPReturn_nonneg by now apply Qlt_le_weak.
    apply length_firstn. }
  destruct (Nat.eqb_spec kept 0) as [H0 | Hne].
  - destruct (@estimateVsize_payload_chunks inputEncodings outputEncodings
                opReturn opReturnSizeLimit 0) as [without [H1 H2]].
    + rewrite Hkept, H0, Hlim. change (of_nat 0) with (Fin 0).
      now rewrite (@div_zero_positive (Fin limit) Hpos).
    + exists without. split; [exact H1 |].
      rewrite H2, Hkept, H0. reflexivity.
  - destruct (@estimateVsize_payload_chunks inputEncodings outputEncodings
                opReturn opReturnSizeLimit 1) as [without [H1 H2]].
    + rewrite Hkept, Hlim. apply ceil_div_within; [lia |].
      apply Qle_trans with (inject_Z (Qfloor limit)); [| apply Qfloor_le].
      rewrite <- Zle_Qle. unfold kept. lia.
    + exists without. split; [exact H1 |].
      rewrite H2, Hkept. reflexivity.
Qed.

Lemma opReturn_adds_one_prefix_witness :
  default_to TX_OP_RETURN_SIZE_LIMIT (Some (Fin 3.5)) = Fin 3.5
  /\ 0 < 3.5
  /\ exists without : number,
      estimateVsize [str "P2WPKH"] [str "P2PKH"] None (Some (Fin 3.5))
      = Returns without
      /\ estimateVsize [str "P2WPKH"] [str "P2PKH"] (Some (str "hello world"))
           (Some (Fin 3.5))
         = Returns
             (add without
                (of_Z (if (Nat.min (Z.to_nat (Qfloor 3.5))
                             (List.length (Buffer_from (str "hello world")))
                           =? 0)%nat
                       then 0
                       else 12 + Z.of_nat
                                   (Nat.min (Z.to_nat (Qfloor 3.5))
                                      (List.length
                                         (Buffer_from (str "hello world"))))))).
Proof.
  split; [reflexivity | split; [reflexivity |]].
  exact (@opReturn_adds_one_prefix [str "P2WPKH"] [str "P2PKH"]
           (str "hello world") (Some (Fin 3.5)) 3.5 eq_refl eq_refl).
Defined.

Section OddLimits.

Lemma loadOPReturn_zero (opReturn : jsstring) (limit : Q) :
  limit == 0 -> loadOPReturn opReturn (Some (Fin limit)) = [].
Proof.
  intro H. rewrite loadOPReturn_nonneg by (rewrite H; apply Qle_refl).
  rewrite (Qfloor_comp _ _ H). reflexivity.
Qed.

Lemma loadOPReturn_infinite (opReturn : jsstring) :
  loadOPReturn opReturn (Some (Infinity false)) = Buffer_from opReturn
  /\ loadOPReturn opReturn (Some (Infinity true)) = [].
Proof.
  unfold loadOPReturn. cbn [default_to]. rewrite !Buffer_slice_from_0.
  split; [apply firstn_all | reflexivity].
Qed.

Lemma sign_zero (q : Q) : q == 0 -> sign q = Eq.
Proof.
  unfold sign, Qeq. simpl. intro H. apply Z.compare_eq_iff. lia.
Qed.

Lemma estimateVsize_NaN_chunks
    (ins outs : list jsstring) (opReturn : jsstring) (lim : option number) :
  let limit := default_to TX_OP_RETURN_SIZE_LIMIT lim in
  div (of_nat (List.length (loadOPReturn opReturn (Some limit)))) limit = NaN ->
  estimateVsize ins outs (Some opReturn) lim = Returns NaN.
Proof.
  intros limit H.
  unfold estimateVsize, vsizeBeforeCeil, Array_reduce. cbn [bind].
  fold limit. rewrite H.
  change (mul OP_RETURN_OUTPUT_PREFIX_VSIZE (ceil NaN)) with NaN.
  now rewrite Math_ceil_after_NaN.
Qed.

(** An estimate is a rounded number: adding zero to it changes nothing. *)
Lemma estimateVsize_add_zero
    (ins outs : list jsstring) (opReturn : option jsstring)
    (lim : option number) (w : number) :
  estimateVsize ins outs opReturn lim = Returns w -> add w (of_Z 0) = w.
Proof.
  unfold estimateVsize, vsizeBeforeCeil, Array_reduce. cbn [bind].
  intro H. injection H as <-.
  match goal with |- add (Math_ceil ?v) _ = _ => destruct v as [| [| s | x] | |] end;
    try reflexivity.
  cbn [Math_ceil ceil]. rewrite add_of_Z. now rewrite Z.add_0_r.
Qed.

Lemma Qceiling_div_neg (m k : Z) :
  (0 < k)%Z -> Qceiling (inject_Z m / inject_Z (- k)) = (- (m / k))%Z.
Proof.
  intro Hk. unfold Qceiling. f_equal.
  rewrite Zdiv_Qdiv. apply Qfloor_comp.
  rewrite inject_Z_opp. field.
  change 0 with (inject_Z 0). rewrite inject_Z_injective. lia.
Qed.

End OddLimits.

(** X4: when the size limit is zero or NaN, the estimate of any transaction
    with a payload -- even the empty string -- is NaN. *)
Theorem estimateVsize_zero_limit_NaN
    (inputEncodings outputEncodings : list jsstring) (opReturn : jsstring)
    (limit : number) :
  limit = NaN \/ (exists q : Q, limit = Fin q /\ q == 0) ->
  estimateVsize inputEncodings outputEncodings (Some opReturn) (Some limit)
  = Returns NaN.
Proof.
  intros [-> | [q [-> Hq]]]; apply estimateVsize_NaN_chunks; cbn [default_to].
  - reflexivity.
  - rewrite (loadOPReturn_zero _ Hq). unfold div, of_nat, of_Z.
    now rewrite (sign_zero Hq).
Qed.

Lemma estimateVsize_zero_limit_NaN_witness :
  (Fin 0 = NaN \/ (exists q : Q, Fin 0 = Fin q /\ q == 0))
  /\ estimateVsize [str "P2PKH"] [str "P2PKH"] (Some []) (Some (Fin 0))
     = Returns NaN.
Proof.
  assert (H : Fin 0 = NaN \/ (exists q : Q, Fin 0 = Fin q /\ q == 0))
    by (right; exists 0; split; reflexivity).
  split; [exact H | exact (estimateVsize_zero_limit_NaN _ _ _ H)].
Defined.

(** X5: an infinite size limit.  With [+Infinity] the whole payload is kept
    and counted but no prefix overhead is added; with [-Infinity] the payload
    adds nothing. *)
Theorem estimateVsize_infinite_limit
    (inputEncodings outputEncodings : list jsstring) (opReturn : jsstring) :
  exists without : number,
    (forall limit, estimateVsize inputEncodings outputEncodings None limit
                   = Returns without)
    /\ estimateVsize inputEncodings outputEncodings (Some opReturn)
         (Some (Infinity false))
       = Returns (add without
                    (of_nat (List.length (Buffer_from opReturn))))
    /\ estimateVsize inputEncodings outputEncodings (Some opReturn)
         (Some (Infinity true))
       = Returns without.
Proof.
  destruct (@estimateVsize_payload_chunks inputEncodings outputEncodings
              opReturn (Some (Infinity false)) 0) as [w [H1 H2]];
    [reflexivity |].
  destruct (@estimateVsize_payload_chunks inputEncodings outputEncodings
              opReturn (Some (Infinity true)) 0) as [w' [H1' H2']];
    [reflexivity |].
  exists w. split; [| split].
  - intro limit. rewrite <- H1. reflexivity.
  - rewrite H2. cbn [default_to].
    destruct (loadOPReturn_infinite opReturn) as [Hall _]. now rewrite Hall.
  - replace w with w'
      by (pose proof (eq_trans (eq_sym H1) H1') as E; congruence).
    rewrite H2'. cbn [default_to].
    destruct (loadOPReturn_infinite opReturn) as [_ Hnone]. rewrite Hnone.
    f_equal. exact (estimateVsize_add_zero H1').
Qed.

(** X6: a negative integer size limit [-k] is not rejected.  The payload loses
    its last [k] bytes, and each full run of [k] kept bytes takes one prefix
    overhead of 12 off: the kept length [m] changes the estimate by
    [m - 12 * (m / k)], [m / k] being the quotient rounded down. *)
Theorem estimateVsize_negative_limit
    (inputEncodings outputEncodings : list jsstring) (opReturn : jsstring)
    (k : Z) :
  (0 < k)%Z ->
  let kept := (List.length (Buffer_from opReturn) - Z.to_nat k)%nat in
  exists without : number,
    estimateVsize inputEncodings outputEncodings None (Some (of_Z (- k)))
    = Returns without
    /\ estimateVsize inputEncodings outputEncodings (Some opReturn)
         (Some (of_Z (- k)))
       = Returns (add without
                    (of_Z (Z.of_nat kept - 12 * (Z.of_nat kept / k)))).
Proof.
  intros Hk kept.
  assert (Hkept : List.length (loadOPReturn opReturn (Some (of_Z (- k))))
                  = kept).
  { rewrite (loadOPReturn_negative _ Hk), length_firstn. unfold kept. lia. }
  destruct (@estimateVsize_payload_chunks inputEncodings outputEncodings
              opReturn (Some (of_Z (- k))) (- (Z.of_nat kept / k)))
    as [without [H1 H2]].
  - cbn [default_to]. rewrite Hkept. unfold div, of_nat, of_Z.
    rewrite sign_neg
      by (change 0 with (inject_Z 0); rewrite <- Zlt_Qlt; lia).
    cbn [ceil]. unfold of_Z. do 2 f_equal.
    rewrite (Qceiling_comp _ _ (Qred_correct _)).
    now apply Qceiling_div_neg.
  - exists without. split; [exact H1 |].
    rewrite H2. cbn [default_to]. rewrite Hkept. do 3 f_equal. ring.
Qed.

Lemma estimateVsize_negative_limit_witness :
  (0 < 1)%Z
  /\ exists without : number,
      estimateVsize [] [] None (Some (of_Z (- 1))) = Returns without
      /\ estimateVsize [] [] (Some (str "hello")) (Some (of_Z (- 1)))
         = Returns
             (add without
                (of_Z (Z.of_nat (List.length (Buffer_from (str "hello"))
                                 - Z.to_nat 1)
                       - 12 * (Z.of_nat
                                 (List.length (Buffer_from (str "hello"))
                                  - Z.to_nat 1) / 1)))).
Proof.
  split; [reflexivity |].
  exact (@estimateVsize_negative_limit [] [] (str "hello") 1 eq_refl).
Defined.

(** ** The estimate is a whole number or NaN *)

Section WholeNumber.

Lemma js_plus_not_infinite (a b : value) :
  not_infinite a -> not_infinite b -> not_infinite (js_plus a b).
Proof.
  destruct a as [| [| s | x] | |], b as [| [| t | y] | |];
    cbn; trivial; contradiction.
Qed.

Lemma fold_plus_not_infinite (l : list value) :
  Forall not_infinite l ->
  forall a, not_infinite a -> not_infinite (fold_left js_plus l a).
Proof.
  induction 1 as [| x l Hx _ IH]; intros a Ha; cbn [fold_left].
  - exact Ha.
  - apply IH. now apply js_plus_not_infinite.
Qed.

Lemma lookup_or_zero_not_infinite (e : jsstring) :
  not_infinite (lookup_or_zero INPUT_VSIZE_LOOKUP e)
  /\ not_infinite (lookup_or_zero OUTPUT_VSIZE_LOOKUP e).
Proof.
  unfold lookup_or_zero, js_get, INPUT_VSIZE_LOOKUP, OUTPUT_VSIZE_LOOKUP.
  cbn [own_property].
  split; by_table_key e ltac:(exact I);
    destruct (existsb (jsstring_eqb e) Object_prototype); exact I.
Qed.

Lemma reduce_sum_not_infinite (l : list jsstring) :
  not_infinite (reduce_sum INPUT_VSIZE_LOOKUP l)
  /\ not_infinite (reduce_sum OUTPUT_VSIZE_LOOKUP l).
Proof.
  unfold reduce_sum.
  split; (apply fold_plus_not_infinite; [| exact I]);
    apply Forall_map, Forall_forall; intros e _;
    apply lookup_or_zero_not_infinite.
Qed.

(** The prefix term [12 * ceil(length / limit)] is a whole number or NaN. *)
Lemma prefix_term_not_infinite (opReturn : jsstring) (limit : number) :
  not_infinite
    (VNum (mul OP_RETURN_OUTPUT_PREFIX_VSIZE
             (ceil (div (of_nat (List.length
                                   (loadOPReturn opReturn (Some limit))))
                        limit)))).
Proof.
  destruct limit as [| s | q]; try exact I.
  destruct (Qeq_dec q 0) as [Hq | Hq].
  - rewrite (loadOPReturn_zero _ Hq). unfold div, of_nat, of_Z.
    rewrite (sign_zero Hq). exact I.
  - unfold div, of_nat, of_Z.
    destruct (sign q) eqn:Hs; try exact I.
    exfalso. apply Hq. unfold sign in Hs. apply Z.compare_eq_iff in Hs.
    unfold Qeq. simpl. lia.
Qed.

Lemma Math_ceil_whole (v : value) :
  not_infinite v -> Math_ceil v = NaN \/ exists z : Z, Math_ceil v = of_Z z.
Proof.
  destruct v as [| [| s | x] | |]; cbn; intro H; try (left; reflexivity).
  - contradiction.
  - right. eexists. reflexivity.
Qed.

(** The payload is added on top of the sum accumulated without it. *)
Lemma vsizeBeforeCeil_payload
    (ins outs : list jsstring) (opReturn : jsstring) (lim : option number) :
  vsizeBeforeCeil ins outs (Some opReturn) lim
  = (vsize <- vsizeBeforeCeil ins outs None lim ;;
     let limit := default_to TX_OP_RETURN_SIZE_LIMIT lim in
     let opReturnLength :=
       of_nat (List.length (loadOPReturn opReturn (Some limit))) in
     Returns
       (js_plus
          (js_plus vsize
             (VNum (mul OP_RETURN_OUTPUT_PREFIX_VSIZE
                      (ceil (div opReturnLength limit)))))
          (VNum opReturnLength))).
Proof.
  reflexivity.
Qed.

Lemma vsizeBeforeCeil_not_infinite
    (ins outs : list jsstring) (opReturn : option jsstring)
    (lim : option number) :
  exists vsize : value,
    vsizeBeforeCeil ins outs opReturn lim = Returns vsize
    /\ not_infinite vsize.
Proof.
  assert (Hbase : exists vsize : value,
             vsizeBeforeCeil ins outs None lim = Returns vsize
             /\ not_infinite vsize).
  { rewrite vsizeBeforeCeil_no_payload. eexists. split; [reflexivity |].
    pose proof (reduce_sum_not_infinite ins) as [Hin _].
    pose proof (reduce_sum_not_infinite outs) as [_ Hout].
    destruct (hasSegwit ins);
      repeat apply js_plus_not_infinite; trivial; exact I. }
  destruct opReturn as [payload |]; [| exact Hbase].
  destruct Hbase as [vsize [Hv Hfin]].
  rewrite vsizeBeforeCeil_payload, Hv. cbn [bind].
  eexists. split; [reflexivity |].
  repeat apply js_plus_not_infinite; trivial.
  - apply prefix_term_not_infinite.
  - exact I.
Qed.

End WholeNumber.

(** X7: whatever the encodings, the payload and the size limit,
    [estimateVsize] returns NaN or a whole number; it never returns a
    fraction or an infinity. *)
Theorem estimateVsize_whole_or_NaN
    (inputEncodings outputEncodings : list jsstring)
    (opReturn : option jsstring) (opReturnSizeLimit : option number) :
  exists result : number,
    estimateVsize inputEncodings outputEncodings opReturn opReturnSizeLimit
    = Returns result
    /\ (result = NaN \/ exists z : Z, result = of_Z z).
Proof.
  destruct (vsizeBeforeCeil_not_infinite inputEncodings outputEncodings
              opReturn opReturnSizeLimit) as [vsize [Hv Hfin]].
  unfold estimateVsize. rewrite Hv. cbn [bind].
  eexists. split; [reflexivity |].
  now apply Math_ceil_whole.
Qed.

(** ** The estimate from the counts of known encodings *)

Section Counts.

Lemma jsstring_eqb_eq (s t : jsstring) : jsstring_eqb s t = true -> s = t.
Proof.
  revert t. induction s as [| c s IH]; intros [| d t]; cbn; try discriminate.
  - reflexivity.
  - intro H. apply andb_prop in H as [Hc Hs].
    apply N.eqb_eq in Hc. now rewrite Hc, (IH t Hs).
Qed.

Lemma count_cons (key e : jsstring) (l : list jsstring) :
  count key (e :: l)
  = ((if jsstring_eqb e key then 1 else 0) + count key l)%Z.
Proof.
  unfold count. cbn [filter]. destruct (jsstring_eqb e key); cbn [List.length]; lia.
Qed.

Lemma count_cons' (key e : jsstring) (l : list jsstring) :
  count key (e :: l) = (is_key e key + count key l)%Z.
Proof.
  apply count_cons.
Qed.

Lemma own_cost_INPUT_key (e : jsstring) :
  own_cost INPUT_VSIZE_LOOKUP e
  == inject_Z (148 * is_key e (str "P2PKH") + 68 * is_key e (str "P2WPKH")
               + 91 * is_key e (str "P2SH-P2WPKH")).
Proof.
  unfold own_cost, INPUT_VSIZE_LOOKUP, is_key. cbn [own_property].
  destruct (jsstring_eqb e (str "P2PKH")) eqn:H1;
    [apply jsstring_eqb_eq in H1; subst e; reflexivity |].
  destruct (jsstring_eqb e (str "P2WPKH")) eqn:H2;
    [apply jsstring_eqb_eq in H2; subst e; reflexivity |].
  destruct (jsstring_eqb e (str "P2SH-P2WPKH")); reflexivity.
Qed.

Lemma own_cost_OUTPUT_key (e : jsstring) :
  own_cost OUTPUT_VSIZE_LOOKUP e
  == inject_Z (34 * is_key e (str "P2PKH") + 31 * is_key e (str "P2WPKH")
               + 32 * is_key e (str "P2SH-P2WPKH")).
Proof.
  unfold own_cost, OUTPUT_VSIZE_LOOKUP, is_key. cbn [own_property].
  destruct (jsstring_eqb e (str "P2PKH")) eqn:H1;
    [apply jsstring_eqb_eq in H1; subst e; reflexivity |].
  destruct (jsstring_eqb e (str "P2WPKH")) eqn:H2;
    [apply jsstring_eqb_eq in H2; subst e; reflexivity |].
  destruct (jsstring_eqb e (str "P2SH-P2WPKH")); reflexivity.
Qed.

Lemma total_INPUT_counts (l : list jsstring) :
  total INPUT_VSIZE_LOOKUP l
  == inject_Z (148 * count (str "P2PKH") l + 68 * count (str "P2WPKH") l
               + 91 * count (str "P2SH-P2WPKH") l).
Proof.
  induction l as [| e l IH]; [reflexivity |].
  cbn [total]. rewrite IH, own_cost_INPUT_key, !count_cons'.
  rewrite <- inject_Z_plus. apply inject_Z_injective. ring.
Qed.

Lemma total_OUTPUT_counts (l : list jsstring) :
  total OUTPUT_VSIZE_LOOKUP l
  == inject_Z (34 * count (str "P2PKH") l + 31 * count (str "P2WPKH") l
               + 32 * count (str "P2SH-P2WPKH") l).
Proof.
  induction l as [| e l IH]; [reflexivity |].
  cbn [total]. rewrite IH, own_cost_OUTPUT_key, !count_cons'.
  rewrite <- inject_Z_plus. apply inject_Z_injective. ring.
Qed.

Lemma Qceiling_whole_plus_overhead (n : Z) (l : list jsstring) :
  Qceiling (inject_Z n + segwit_overhead l)
  = (n + if existsb mentions_P2WPKH l then 1 else 0)%Z.
Proof.
  rewrite (Qceiling_comp _ _ (Qplus_comm _ _)), Qceiling_add_Z.
  unfold segwit_overhead.
  destruct (existsb mentions_P2WPKH l);
    [change (Qceiling (0.5 + 0.25)) with 1%Z | change (Qceiling 0) with 0%Z];
    ring.
Qed.

End Counts.

(** X8: for lists that name no inherited member, and without payload, the
    estimate is a whole-number formula in the counts of the three known
    encodings: 10, plus 148, 68 and 91 per "P2PKH", "P2WPKH" and
    "P2SH-P2WPKH" input, plus 34, 31 and 32 per such output, plus 1 if some
    input contains "P2WPKH".  Any other encoding adds nothing. *)
Theorem estimateVsize_by_counts
    (inputEncodings outputEncodings : list jsstring)
    (opReturnSizeLimit : option number) :
  plain inputEncodings ->
  plain outputEncodings ->
  estimateVsize inputEncodings outputEncodings None opReturnSizeLimit
  = Returns
      (of_Z (10
             + (148 * count (str "P2PKH") inputEncodings
                + 68 * count (str "P2WPKH") inputEncodings
                + 91 * count (str "P2SH-P2WPKH") inputEncodings)
             + (34 * count (str "P2PKH") outputEncodings
                + 31 * count (str "P2WPKH") outputEncodings
                + 32 * count (str "P2SH-P2WPKH") outputEncodings)
             + (if existsb mentions_P2WPKH inputEncodings then 1 else 0))).
Proof.
  intros Hin Hout. rewrite (estimateVsize_plain _ Hin Hout).
  do 2 f_equal. unfold plain_vsize.
  rewrite <- Qceiling_whole_plus_overhead. apply Qceiling_comp.
  rewrite total_INPUT_counts, total_OUTPUT_counts.
  rewrite !inject_Z_plus. reflexivity.
Qed.

Lemma estimateVsize_by_counts_witness :
  plain [str "P2WPKH"; str "P2PKH"; str "P2WPKH"; str "P2TR"]
  /\ plain [str "P2SH-P2WPKH"; str "P2WPKH"]
  /\ estimateVsize [str "P2WPKH"; str "P2PKH"; str "P2WPKH"; str "P2TR"]
       [str "P2SH-P2WPKH"; str "P2WPKH"] None None
     = Returns (of_Z (10 + (148 * 1 + 68 * 2 + 91 * 0)
                      + (34 * 0 + 31 * 1 + 32 * 1) + 1)).
Proof.
  assert (Hin : plain [str "P2WPKH"; str "P2PKH"; str "P2WPKH"; str "P2TR"])
    by (repeat constructor).
  assert (Hout : plain [str "P2SH-P2WPKH"; str "P2WPKH"])
    by (repeat constructor).
  split; [exact Hin | split; [exact Hout |]].
  exact (estimateVsize_by_counts None Hin Hout).
Defined.

(** ** The largest estimate for given list lengths *)

Section UpperBound.

Lemma own_cost_INPUT_le (e : jsstring) : own_cost INPUT_VSIZE_LOOKUP e <= 148.
Proof.
  unfold own_cost, INPUT_VSIZE_LOOKUP. cbn [own_property].
  by_table_key e ltac:(discriminate). discriminate.
Qed.

Lemma own_cost_OUTPUT_le (e : jsstring) : own_cost OUTPUT_VSIZE_LOOKUP e <= 34.
Proof.
  unfold own_cost, OUTPUT_VSIZE_LOOKUP. cbn [own_property].
  by_table_key e ltac:(discriminate). discriminate.
Qed.

(** An input that switches the segwit overheads on is not the legacy one: it
    costs 91 at most. *)
Lemma own_cost_INPUT_segwit (e : jsstring) :
  mentions_P2WPKH e = true -> own_cost INPUT_VSIZE_LOOKUP e <= 91.
Proof.
  unfold own_cost, INPUT_VSIZE_LOOKUP. cbn [own_property].
  destruct (jsstring_eqb e (str "P2PKH")) eqn:H1.
  - apply jsstring_eqb_eq in H1. subst e. discriminate.
  - intros _. by_table_key e ltac:(discriminate). discriminate.
Qed.

Lemma inject_Z_length_cons {A} (x : A) (l : list A) :
  inject_Z (Z.of_nat (List.length (x :: l)))
  == inject_Z (Z.of_nat (List.length l)) + 1.
Proof.
  cbn [List.length]. rewrite Nat2Z.inj_succ. unfold Z.succ.
  now rewrite inject_Z_plus.
Qed.

Lemma total_INPUT_le (l : list jsstring) :
  total INPUT_VSIZE_LOOKUP l <= 148 * inject_Z (Z.of_nat (List.length l)).
Proof.
  induction l as [| e l IH]; [discriminate |].
  cbn [total]. rewrite inject_Z_length_cons.
  pose proof (own_cost_INPUT_le e). lra.
Qed.

Lemma total_OUTPUT_le (l : list jsstring) :
  total OUTPUT_VSIZE_LOOKUP l <= 34 * inject_Z (Z.of_nat (List.length l)).
Proof.
  induction l as [| e l IH]; [discriminate |].
  cbn [total]. rewrite inject_Z_length_cons.
  pose proof (own_cost_OUTPUT_le e). lra.
Qed.

Lemma total_INPUT_segwit_le (l : list jsstring) :
  existsb mentions_P2WPKH l = true ->
  total INPUT_VSIZE_LOOKUP l
  <= 148 * inject_Z (Z.of_nat (List.length l)) - 57.
Proof.
  induction l as [| e l IH]; [discriminate |].
  cbn [existsb total]. rewrite inject_Z_length_cons.
  destruct (mentions_P2WPKH e) eqn:He; cbn [orb]; intro H.
  - pose proof (own_cost_INPUT_segwit e He). pose proof (total_INPUT_le l). lra.
  - pose proof (own_cost_INPUT_le e). specialize (IH H). lra.
Qed.

Lemma plain_vsize_le (ins outs : list jsstring) :
  plain_vsize ins outs
  <= inject_Z (10 + 148 * Z.of_nat (List.length ins)
               + 34 * Z.of_nat (List.length outs)).
Proof.
  unfold plain_vsize, segwit_overhead.
  rewrite !inject_Z_plus, !inject_Z_mult.
  change (inject_Z 10) with 10. change (inject_Z 148) with 148.
  change (inject_Z 34) with 34.
  pose proof (total_OUTPUT_le outs).
  destruct (existsb mentions_P2WPKH ins) eqn:Hseg.
  - pose proof (total_INPUT_segwit_le ins Hseg). lra.
  - pose proof (total_INPUT_le ins). lra.
Qed.

End UpperBound.

(** X9: for lists that name no inherited member, and without payload, the
    estimate lies between the header size 10 and
    [10 + 148 * inputs + 34 * outputs]: no transaction is estimated larger
    than the all-legacy one with the same numbers of inputs and outputs. *)
Theorem estimateVsize_bounds
    (inputEncodings outputEncodings : list jsstring)
    (opReturnSizeLimit : option number) :
  plain inputEncodings ->
  plain outputEncodings ->
  exists vsize : Z,
    estimateVsize inputEncodings outputEncodings None opReturnSizeLimit
    = Returns (of_Z vsize)
    /\ (10 <= vsize
        <= 10 + 148 * Z.of_nat (List.length inputEncodings)
           + 34 * Z.of_nat (List.length outputEncodings))%Z.
Proof.
  intros Hin Hout. rewrite (estimateVsize_plain _ Hin Hout).
  eexists. split; [reflexivity | split].
  - rewrite <- (Qceiling_Z 10). apply Qceiling_resp_le, plain_vsize_header.
  - rewrite <- (Qceiling_Z (10 + _ + _)).
    apply Qceiling_resp_le, plain_vsize_le.
Qed.

Lemma estimateVsize_bounds_witness :
  plain [str "P2WPKH"; str "P2PKH"]
  /\ plain [str "P2SH-P2WPKH"]
  /\ exists vsize : Z,
      estimateVsize [str "P2WPKH"; str "P2PKH"] [str "P2SH-P2WPKH"] None None
      = Returns (of_Z vsize)
      /\ (10 <= vsize
          <= 10 + 148 * Z.of_nat (List.length [str "P2WPKH"; str "P2PKH"])
             + 34 * Z.of_nat (List.length [str "P2SH-P2WPKH"]))%Z.
Proof.
  assert (Hin : plain [str "P2WPKH"; str "P2PKH"]) by (repeat constructor).
  assert (Hout : plain [str "P2SH-P2WPKH"]) by (repeat constructor).
  split; [exact Hin | split; [exact Hout |]].
  exact (estimateVsize_bounds None Hin Hout).
Defined.

(** X10: for lists that name no inherited member, and without payload,
    appending one more such encoding to the inputs or to the outputs never
    lowers the estimate. *)
Theorem estimateVsize_append_monotone
    (inputEncodings outputEncodings : list jsstring) (encoding : jsstring)
    (opReturnSizeLimit : option number) :
  plain inputEncodings -> plain outputEncodings -> plain [encoding] ->
  exists before more_inputs more_outputs : Z,
    estimateVsize inputEncodings outputEncodings None opReturnSizeLimit
    = Returns (of_Z before)
    /\ estimateVsize (inputEncodings ++ [encoding]) outputEncodings None
         opReturnSizeLimit
       = Returns (of_Z more_inputs)
    /\ estimateVsize inputEncodings (outputEncodings ++ [encoding]) None
         opReturnSizeLimit
       = Returns (of_Z more_outputs)
    /\ (before <= more_inputs)%Z /\ (before <= more_outputs)%Z.
Proof.
  intros Hin Hout He.
  destruct (estimateVsize_monotone_plain opReturnSizeLimit Hin Hout He)
    as [b [i [o [H1 [H2 [H3 [_ [H4 H5]]]]]]]].
  exists b, i, o. repeat split; assumption.
Qed.

Lemma estimateVsize_append_monotone_witness :
  plain [str "P2PKH"] /\ plain [] /\ plain [str "P2WPKH"]
  /\ exists before more_inputs more_outputs : Z,
      estimateVsize [str "P2PKH"] [] None None = Returns (of_Z before)
      /\ estimateVsize ([str "P2PKH"] ++ [str "P2WPKH"]) [] None None
         = Returns (of_Z more_inputs)
      /\ estimateVsize [str "P2PKH"] ([] ++ [str "P2WPKH"]) None None
         = Returns (of_Z more_outputs)
      /\ (before <= more_inputs)%Z /\ (before <= more_outputs)%Z.
Proof.
  assert (H1 : plain [str "P2PKH"]) by (repeat constructor).
  assert (H2 : plain (@nil jsstring)) by constructor.
  assert (H3 : plain [str "P2WPKH"]) by (repeat constructor).
  split; [exact H1 | split; [exact H2 | split; [exact H3 |]]].
  exact (estimateVsize_append_monotone None H1 H2 H3).
Defined.

(** ** The Solana client *)

Section SolanaLoops.

Import Solana.

Lemma for_of_ext {A S} (items : list A) (body body' : A -> S -> outcome S) :
  (forall x s, body x s = body' x s) ->
  forall s, for_of items body s = for_of items body' s.
Proof.
  intro H. induction items as [| x rest IH]; intro s; cbn [for_of].
  - reflexivity.
  - rewrite H. destruct (body' x s); cbn [and_then]; [apply IH | reflexivity].
Qed.

(** A loop that only pushes builds the image of the list, in order. *)
Lemma for_of_push {A B} (f : A -> B) (items : list A) (result : list B) :
  for_of items (fun x result => Fulfilled (push result (f x))) result
  = Fulfilled (result ++ map f items).
Proof.
  revert result. induction items as [| x rest IH]; intro result; cbn [for_of map].
  - now rewrite app_nil_r.
  - cbn [and_then]. rewrite IH. unfold push. now rewrite <- app_assoc.
Qed.

(** The loop of [getTransactionStatuses]: all statuses, or a [TypeError] at
    the first answer that cannot be read. *)
Lemma statuses_loop (resp : list json) (result : list (option TransactionStatus)) :
  for_of resp
    (fun tx result =>
       match tx with
       | JUndefined => Fulfilled (push result None)
       | JNull => Fulfilled (push result (Some NOT_FOUND))
       | _ =>
           let* meta := get tx "meta" in
           let* err := get meta "err" in
           Fulfilled
             (push result
                (Some (if is_null err then CONFIRM_AND_SUCCESS
                       else CONFIRM_BUT_FAILED)))
       end)
    result
  = if forallb readable resp
    then Fulfilled (result ++ map status_of resp)
    else Failed TypeErrorThrown.
Proof.
  revert result.
  induction resp as [| tx rest IH]; intro result; cbn [for_of forallb map].
  - now rewrite app_nil_r.
  - assert (Hnext : forall entry,
               for_of rest
                 (fun tx result =>
                    match tx with
                    | JUndefined => Fulfilled (push result None)
                    | JNull => Fulfilled (push result (Some NOT_FOUND))
                    | _ =>
                        let* meta := get tx "meta" in
                        let* err := get meta "err" in
                        Fulfilled
                          (push result
                             (Some (if is_null err then CONFIRM_AND_SUCCESS
                                    else CONFIRM_BUT_FAILED)))
                    end)
                 (push result entry)
               = if forallb readable rest
                 then Fulfilled (result ++ entry :: map status_of rest)
                 else Failed TypeErrorThrown).
    { intro entry. rewrite IH. unfold push.
      now rewrite <- app_assoc. }
    destruct tx as [| | b | n | s | items | fields];
      cbn [and_then get readable get_optional nullish negb andb status_of];
      try apply Hnext; try reflexivity.
    destruct (field_of fields (str "meta")) as [| | b | n | s | items | inner];
      cbn [and_then get nullish negb andb get_optional];
      try apply Hnext; reflexivity.
Qed.

End SolanaLoops.

(** X11: [getTransactionStatuses] is all or nothing.  When every answer of
    the node is [undefined], [null], or an object whose [meta] is neither, the
    result has one entry per answer, in order: [undefined] for [undefined],
    [NOT_FOUND] for [null], [CONFIRM_AND_SUCCESS] when [meta.err] is [null]
    and [CONFIRM_BUT_FAILED] otherwise -- also when [meta] has no [err].
    One answer of any other kind makes the whole call fail with a
    [TypeError], and a rejected batch call rejects it. *)
Theorem getTransactionStatuses_all_or_nothing
    (batchCall : list (Solana.RPC_METHODS * list Solana.json)
                 -> Solana.outcome (list Solana.json))
    (txids : list jsstring) :
  match batchCall
          (map (fun txid =>
                  (Solana.GET_TRANSACTION,
                   [Solana.JString txid; Solana.JString Solana.JSON_PARSED]))
               txids) with
  | Solana.Fulfilled resp =>
      Solana.getTransactionStatuses batchCall txids
      = if forallb Solana.readable resp
        then Solana.Fulfilled (map Solana.status_of resp)
        else Solana.Failed Solana.TypeErrorThrown
  | Solana.Failed reason =>
      Solana.getTransactionStatuses batchCall txids = Solana.Failed reason
  end.
Proof.
  unfold Solana.getTransactionStatuses.
  destruct (batchCall _) as [resp | reason]; cbn [Solana.and_then].
  - apply statuses_loop.
  - reflexivity.
Qed.

(** X12: [getAddresses] fails only if the batch call is rejected.  Otherwise
    its result has one entry per answer, in order: [undefined] exactly for
    the answers that are [undefined], and else an entry whose [balance] is a
    number not below zero -- the lamports of the answer if they are such a
    number, with [existing] true, and 0 with [existing] false if they are
    missing, not a number, infinite or negative. *)
Theorem getAddresses_sound_balances
    (batchCall : list (Solana.RPC_METHODS * list Solana.json)
                 -> Solana.outcome (list Solana.json))
    (BigNumber : Solana.json -> number)
    (addresses : list jsstring) :
  match batchCall
          (map (fun address =>
                  (Solana.GET_ACCOUNT_INFO,
                   [Solana.JString address;
                    Solana.JObject
                      [(str "encoding", Solana.JString Solana.JSON_PARSED)]]))
               addresses) with
  | Solana.Fulfilled resp =>
      exists result,
        Solana.getAddresses batchCall BigNumber addresses
        = Solana.Fulfilled result
        /\ Forall2 (Solana.address_entry BigNumber) resp result
  | Solana.Failed reason =>
      Solana.getAddresses batchCall BigNumber addresses = Solana.Failed reason
  end.
Proof.
  unfold Solana.getAddresses.
  destruct (batchCall _) as [resp | reason]; cbn [Solana.and_then];
    [| reflexivity].
  set (entry := fun accountInfo =>
         match accountInfo with
         | Solana.JUndefined => None
         | _ =>
             let lamports :=
               BigNumber (Solana.get_optional
                            (Solana.get_optional accountInfo "value")
                            "lamports") in
             Some {| Solana.existing := Solana.sound_balance lamports;
                     Solana.balance :=
                       if Solana.sound_balance lamports then lamports
                       else Fin 0 |}
         end).
  exists (map entry resp). split.
  - rewrite <- (app_nil_l (map entry resp)), <- for_of_push.
    apply for_of_ext. intros accountInfo result.
    destruct accountInfo; reflexivity.
  - induction resp as [| accountInfo rest IH]; cbn [map]; constructor;
      [| exact IH].
    assert (Hsound : forall lamports,
               Solana.sound_balance
                 (if Solana.sound_balance lamports then lamports else Fin 0)
               = true).
    { intro lamports. destruct (Solana.sound_balance lamports) eqn:H;
        [exact H | reflexivity]. }
    destruct accountInfo; cbn; try reflexivity;
      (split; [discriminate | split; [reflexivity | split; [reflexivity |]]]);
      apply Hsound.
Qed.

(** X13: [broadcastTransaction] never fails, and what it reports is whether
    the call expression itself threw: [true] whenever [rpc.call] hands back a
    promise -- one that resolves and just as well one that is rejected,
    because the promise is not awaited -- and [false] only when the call
    expression throws. *)
Theorem broadcastTransaction_ignores_rejection
    (call : Solana.RPC_METHODS -> list Solana.json
            -> completion (Solana.promise Solana.json))
    (rawTx : jsstring) :
  let sent :=
    call Solana.SEND_TRANSACTION
      [Solana.JString rawTx;
       Solana.JObject [(str "encoding", Solana.JString Solana.BASE64)]] in
  (forall answer,
      sent = Returns (Solana.Resolves answer) ->
      Solana.broadcastTransaction call rawTx = Solana.Fulfilled true)
  /\ (forall reason,
        sent = Returns (Solana.Rejects reason) ->
        Solana.broadcastTransaction call rawTx = Solana.Fulfilled true)
  /\ (forall e,
        sent = Throws e ->
        Solana.broadcastTransaction call rawTx = Solana.Fulfilled false)
  /\ (exists isSuccess,
        Solana.broadcastTransaction call rawTx = Solana.Fulfilled isSuccess).
Proof.
  intro sent. unfold Solana.broadcastTransaction. fold sent.
  split; [| split; [| split]].
  - intros answer H. now rewrite H.
  - intros reason H. now rewrite H.
  - intros e H. now rewrite H.
  - eexists. reflexivity.
Qed.

Section SolanaBalances.

Import Solana.

Lemma get_defined (v : json) (name : string) :
  nullish v = false -> get v name = Fulfilled (get_optional v name).
Proof.
  destruct v; cbn; congruence.
Qed.

Lemma for_of_ext_in {A S} (items : list A) (body body' : A -> S -> outcome S) :
  (forall x, In x items -> forall s, body x s = body' x s) ->
  forall s, for_of items body s = for_of items body' s.
Proof.
  induction items as [| x rest IH]; intros H s; cbn [for_of].
  - reflexivity.
  - rewrite (H x (or_introl eq_refl)).
    destruct (body' x s); cbn [and_then]; [| reflexivity].
    apply IH. intros y Hy. apply H. now right.
Qed.

(** A loop whose body cannot fail is a left fold. *)
Lemma for_of_pure {A S} (g : A -> S -> S) (items : list A) (s : S) :
  for_of items (fun x s => Fulfilled (g x s)) s
  = Fulfilled (fold_left (fun s x => g x s) items s).
Proof.
  revert s. induction items as [| x rest IH]; intro s; cbn [for_of fold_left].
  - reflexivity.
  - cbn [and_then]. apply IH.
Qed.

(** Adding under a condition is adding over the filtered list. *)
Lemma fold_add_filter {A} (keep : A -> bool) (amount : A -> number)
    (items : list A) (start : number) :
  fold_left (fun sum x => if keep x then add sum (amount x) else sum)
    items start
  = fold_left add (map amount (filter keep items)) start.
Proof.
  revert start. induction items as [| x rest IH]; intro start;
    cbn [fold_left filter].
  - reflexivity.
  - destruct (keep x); cbn [map fold_left]; apply IH.
Qed.

Lemma forEach_from_steps {A B C}
    (step : A -> B -> C) (body : B -> nat -> list C -> outcome (list C))
    (all : list A) (good : A -> B -> Prop) :
  (forall a b i result,
      nth_error all i = Some a -> good a b ->
      body b i result = Fulfilled (push result (step a b))) ->
  forall (rest : list A) (items : list B),
    Forall2 good rest items ->
    forall i result,
      (forall j a, nth_error rest j = Some a ->
                   nth_error all (i + j) = Some a) ->
      forEach_from i items body result
      = Fulfilled
          (result ++ map (fun p => step (fst p) (snd p)) (combine rest items)).
Proof.
  intros Hstep rest items Hgood.
  induction Hgood as [| a b rest items Hab _ IH]; intros i result Hnth;
    cbn [forEach_from combine map].
  - now rewrite app_nil_r.
  - rewrite (Hstep a b i result); [| | exact Hab].
    + cbn [and_then fst snd]. rewrite IH.
      * unfold push. now rewrite <- app_assoc.
      * intros j a' Hj. replace (S i + j)%nat with (i + S j)%nat by lia.
        now apply Hnth.
    + rewrite <- (Nat.add_0_r i). now apply Hnth.
Qed.

End SolanaBalances.

(** X14: what [getBalances] reports.  If the node answers every request, in
    order, with an answer the loop can read, the result has one entry per
    request: [undefined] for the answer [undefined]; for a token request the
    sum of [info.tokenAmount.amount] over the token accounts whose
    [info.owner] is the address of the request, accounts of other owners
    adding nothing; for any other request 0 when [value] is [null] and else
    [value.lamports] as [BigNumber] reads it, which nothing checks to be a
    number or not below zero.  A rejected batch call rejects it. *)
Theorem getBalances_reports
    (batchCall : list (Solana.RPC_METHODS * list Solana.json)
                 -> Solana.outcome (list Solana.json))
    (BigNumber : Solana.json -> number)
    (requests : list Solana.BalanceRequest) :
  match batchCall
          (map (fun request =>
                  match Solana.tokenAddress (Solana.coin request) with
                  | Some ((_ :: _) as mint) =>
                      (Solana.GET_TOKEN_ACCOUNTS_BY_OWNER,
                       [Solana.JString (Solana.address request);
                        Solana.JObject [(str "mint", Solana.JString mint)];
                        Solana.JObject
                          [(str "encoding",
                            Solana.JString Solana.JSON_PARSED)]])
                  | _ =>
                      (Solana.GET_ACCOUNT_INFO,
                       [Solana.JString (Solana.address request);
                        Solana.JObject
                          [(str "encoding",
                            Solana.JString Solana.JSON_PARSED)]])
                  end)
               requests) with
  | Solana.Fulfilled resps =>
      Forall2 (fun request resp => Solana.readable_answer request resp = true)
        requests resps ->
      Solana.getBalances batchCall BigNumber requests
      = Solana.Fulfilled
          (map (fun p => Solana.expected_balance BigNumber (fst p) (snd p))
               (combine requests resps))
  | Solana.Failed reason =>
      Solana.getBalances batchCall BigNumber requests = Solana.Failed reason
  end.
Proof.
  unfold Solana.getBalances, Solana.forEach.
  destruct (batchCall _) as [resps | reason]; cbn [Solana.and_then];
    [| reflexivity].
  intro Hread.
  rewrite <- (app_nil_l (map _ (combine requests resps))).
  apply (forEach_from_steps (Solana.expected_balance BigNumber) _ requests
           (good := fun request resp =>
                      Solana.readable_answer request resp = true));
    [| exact Hread | intros j a H; exact H].
  clear resps Hread.
  intros request resp i result Hnth Hresp.
  unfold Solana.request_at. rewrite Hnth.
  destruct resp as [| | b | n | s | items | fields];
    try reflexivity; try discriminate;
    cbn [Solana.and_then Solana.readable_answer Solana.expected_balance
         Solana.get Solana.get_optional] in *;
    destruct (Solana.has_token request) eqn:Htoken;
    try discriminate; try reflexivity.
  - (* a token request answered by an object *)
    destruct (Solana.field_of fields (str "value"))
      as [| | b | n | s | tokenAccounts | inner];
      try discriminate.
    cbn [Solana.iterate Solana.and_then].
    rewrite (for_of_ext_in tokenAccounts _
               (fun tokenAccount balance =>
                  Solana.Fulfilled
                    (if Solana.owned_by (Solana.address request) tokenAccount
                     then add balance
                            (BigNumber (Solana.amount_of tokenAccount))
                     else balance))).
    + rewrite for_of_pure, fold_add_filter. reflexivity.
    + intros tokenAccount Hin balance.
      rewrite forallb_forall in Hresp. specialize (Hresp _ Hin).
      unfold Solana.readable_account in Hresp.
      repeat (apply andb_prop in Hresp as [Hresp ?]).
      repeat match goal with
             | H : negb _ = true |- _ => apply negb_true_iff in H
             end.
      repeat (rewrite get_defined by assumption; cbn [Solana.and_then]).
      fold (Solana.info_of tokenAccount).
      fold (Solana.owned_by (Solana.address request) tokenAccount).
      destruct (Solana.owned_by (Solana.address request) tokenAccount) eqn:Ho;
        [| reflexivity].
      match goal with
      | H : (negb true || _)%bool = true |- _ =>
          cbn [negb orb] in H; apply negb_true_iff in H
      end.
      rewrite get_defined by assumption. cbn [Solana.and_then].
      unfold Solana.amount_of.
      destruct (Solana.get_optional (Solana.info_of tokenAccount) "tokenAmount");
        try discriminate; reflexivity.
  - (* any other request answered by an object *)
    destruct (Solana.field_of fields (str "value")); try discriminate;
      reflexivity.
Qed.

Lemma getBalances_reports_witness :
  let answers :=
    [Solana.JObject
       [(str "value",
         Solana.JArray
           [Solana.JObject
              [(str "account",
                Solana.JObject
                  [(str "data",
                    Solana.JObject
                      [(str "parsed",
                        Solana.JObject
                          [(str "info",
                            Solana.JObject
                              [(str "owner", Solana.JString (str "alice"));
                               (str "tokenAmount",
                                Solana.JObject
                                  [(str "amount",
                                    Solana.JNumber (Fin 7))])])])])])];
            Solana.JObject
              [(str "account",
                Solana.JObject
                  [(str "data",
                    Solana.JObject
                      [(str "parsed",
                        Solana.JObject
                          [(str "info",
                            Solana.JObject
                              [(str "owner",
                                Solana.JString (str "carol"))])])])])]])];
     Solana.JObject
       [(str "value",
         Solana.JObject [(str "lamports", Solana.JNumber (Fin (-5)))])];
     Solana.JUndefined] in
  (* a node that answers only when the first call asks for the token accounts
     of "alice" under the whole mint "USDC" *)
  let batchCall := fun calls : list (Solana.RPC_METHODS * list Solana.json) =>
    match calls with
    | (Solana.GET_TOKEN_ACCOUNTS_BY_OWNER,
       [Solana.JString owner; Solana.JObject [(_, Solana.JString mint)]; _])
      :: _ =>
        if jsstring_eqb owner (str "alice") && jsstring_eqb mint (str "USDC")
        then Solana.Fulfilled answers
        else Solana.Failed (Solana.Rejected Solana.JNull)
    | _ => Solana.Failed (Solana.Rejected Solana.JNull)
    end in
  let BigNumber := fun v : Solana.json =>
    match v with
    | Solana.JNumber n => n
    | _ => NaN
    end in
  let requests :=
    [{| Solana.address := str "alice";
        Solana.coin := {| Solana.tokenAddress := Some (str "USDC") |} |};
     {| Solana.address := str "bob";
        Solana.coin := {| Solana.tokenAddress := None |} |};
     {| Solana.address := str "dave";
        Solana.coin := {| Solana.tokenAddress := None |} |}] in
  Solana.getBalances batchCall BigNumber requests
  = Solana.Fulfilled [Some (Fin 7); Some (Fin (-5)); None].
Proof.
  intros answers batchCall BigNumber requests.
  apply (getBalances_reports batchCall BigNumber requests).
  repeat constructor.
Defined.

Lemma broadcastTransaction_ignores_rejection_witness :
  let resolving := fun (_ : Solana.RPC_METHODS) (_ : list Solana.json) =>
    Returns (Solana.Resolves (Solana.JString (str "5VERv8"))) in
  let rejecting := fun (_ : Solana.RPC_METHODS) (_ : list Solana.json) =>
    Returns (Solana.Rejects (Solana.JString (str "node is behind"))) in
  let throwing := fun (_ : Solana.RPC_METHODS) (_ : list Solana.json) =>
    @Throws (Solana.promise Solana.json) TypeError in
  Solana.broadcastTransaction resolving (str "AQID") = Solana.Fulfilled true
  /\ Solana.broadcastTransaction rejecting (str "AQID") = Solana.Fulfilled true
  /\ Solana.broadcastTransaction throwing (str "AQID")
     = Solana.Fulfilled false.
Proof.
  intros resolving rejecting throwing. split; [| split].
  - apply (proj1 (broadcastTransaction_ignores_rejection resolving
                    (str "AQID"))
             (Solana.JString (str "5VERv8"))).
    reflexivity.
  - apply (proj1 (proj2 (broadcastTransaction_ignores_rejection rejecting
                           (str "AQID")))
             (Solana.JString (str "node is behind"))).
    reflexivity.
  - apply (proj1 (proj2 (proj2 (broadcastTransaction_ignores_rejection
                                  throwing (str "AQID"))))
             TypeError).
    reflexivity.
Defined.
